(** * SQL-SchemaLens: the AST analyzer (analyzer.js)

    A shallow embedding of [analyzeSqlAst] and its helpers
    ([extractTableName], [extractColumns], [extractColumnName],
    [buildDataType]) together with the properties the specification
    states about them.

    The analyzer walks the tree that node-sql-parser returns: plain
    JavaScript data.  The embedding therefore starts with the fragment of
    JavaScript the analyzer relies on: values, truthiness, [typeof],
    property reads (which throw on [null] and [undefined]), string
    conversion in template literals, and [Map] with insertion order. *)

From Stdlib Require Import String Ascii List ZArith Lia Bool DecimalString.
Import ListNotations.
Open Scope string_scope.
Open Scope list_scope.
Open Scope Z_scope.

(** ** JavaScript values *)

(** The data a parser (or [JSON.parse]) produces.  Numbers are the integers
    found in such a tree (lengths, scales, literals, below 2^53 in absolute
    value; other numbers occur inside value tuples only, which the analyzer
    counts and does not look into); strings are ASCII; an object is the list
    of its own properties in definition order, its prototype being
    [Object.prototype]; the tree has no sharing: an object occurs at one
    place only. *)
Unset Elimination Schemes.
Inductive value : Type :=
| VUndefined
| VNull
| VBool (b : bool)
| VNum (n : Z)
| VStr (s : string)
| VArr (elements : list value)
| VObj (properties : list (string * value)).
Set Elimination Schemes.

Section ValueInduction.
Variable P : value -> Prop.
Hypothesis Hundefined : P VUndefined.
Hypothesis Hnull : P VNull.
Hypothesis Hbool : forall b, P (VBool b).
Hypothesis Hnum : forall n, P (VNum n).
Hypothesis Hstr : forall s, P (VStr s).
Hypothesis Harr : forall l, Forall P l -> P (VArr l).
Hypothesis Hobj : forall ps, Forall (fun kv => P (snd kv)) ps -> P (VObj ps).

Fixpoint value_ind (v : value) : P v :=
  match v with
  | VUndefined => Hundefined
  | VNull => Hnull
  | VBool b => Hbool b
  | VNum n => Hnum n
  | VStr s => Hstr s
  | VArr l =>
      Harr l ((fix all (l : list value) : Forall P l :=
                 match l with
                 | [] => Forall_nil P
                 | x :: r => Forall_cons x (value_ind x) (all r)
                 end) l)
  | VObj ps =>
      Hobj ps ((fix all (ps : list (string * value))
                  : Forall (fun kv => P (snd kv)) ps :=
                  match ps with
                  | [] => Forall_nil _
                  | kv :: r => Forall_cons kv (value_ind (snd kv)) (all r)
                  end) ps)
  end.
End ValueInduction.

(** [ToBoolean]. *)
Definition truthy (v : value) : bool :=
  match v with
  | VUndefined | VNull => false
  | VBool b => b
  | VNum n => negb (n =? 0)
  | VStr s => negb (s =? "")%string
  | VArr _ | VObj _ => true
  end.

Definition typeof (v : value) : string :=
  match v with
  | VUndefined => "undefined"
  | VNull => "object"
  | VBool _ => "boolean"
  | VNum _ => "number"
  | VStr _ => "string"
  | VArr _ | VObj _ => "object"
  end.

(** [Array.isArray]. *)
Definition isArray (v : value) : bool :=
  match v with VArr _ => true | _ => false end.

(** [a === b].  Two objects are equal when they are the same object; in a
    tree without sharing two objects met at different places never are, so
    the comparison of objects is [false]. *)
Definition strict_eq (a b : value) : bool :=
  match a, b with
  | VUndefined, VUndefined => true
  | VNull, VNull => true
  | VBool x, VBool y => Bool.eqb x y
  | VNum x, VNum y => x =? y
  | VStr x, VStr y => (x =? y)%string
  | _, _ => false
  end.

(** [a.length], for an array. *)
Definition array_length (v : value) : Z :=
  match v with VArr l => Z.of_nat (List.length l) | _ => 0 end.

(** [v !== undefined && v !== null]. *)
Definition defined (v : value) : bool :=
  negb (strict_eq v VUndefined) && negb (strict_eq v VNull).

(** ** Completions: a value, or a thrown exception *)

Inductive error : Type := TypeError.

Inductive completion (A : Type) : Type :=
| Normal (a : A)
| Throw (e : error).
Arguments Normal {A} a.
Arguments Throw {A} e.

Definition bind {A B} (c : completion A) (k : A -> completion B) : completion B :=
  match c with
  | Normal a => k a
  | Throw e => Throw e
  end.

Notation "x <- c ;; k" := (bind c (fun x => k))
  (at level 61, c at next level, right associativity).

(** ** Property reads *)

(** The own property [k] of an object; a later definition of a key
    overrides an earlier one, as in an object literal. *)
Fixpoint own (k : string) (ps : list (string * value)) : option value :=
  match ps with
  | [] => None
  | (k', v) :: r =>
      match own k r with
      | Some w => Some w
      | None => if (k =? k')%string then Some v else None
      end
  end.

(** [v.k], for the property names the analyzer reads: [type], [db],
    [keyword], [table], [create_definitions], [values], [resource],
    [column], [definition], [dataType], [length] and [scale].  Reading a
    property of [undefined] or [null] throws a TypeError.  None of these
    names is defined by [Object.prototype], [Number.prototype] or
    [Boolean.prototype]; strings and arrays have [length].  (Arrays also
    inherit a method [values], but [values] is read from a statement whose
    [type] is a string only, and an array has no [type].) *)
Definition get (v : value) (k : string) : completion value :=
  match v with
  | VUndefined | VNull => Throw TypeError
  | VBool _ | VNum _ => Normal VUndefined
  | VStr s =>
      Normal (if (k =? "length")%string
              then VNum (Z.of_nat (String.length s)) else VUndefined)
  | VArr l =>
      Normal (if (k =? "length")%string
              then VNum (Z.of_nat (List.length l)) else VUndefined)
  | VObj ps =>
      Normal (match own k ps with Some w => w | None => VUndefined end)
  end.

(** ** Strings *)

Definition upper_ascii (c : ascii) : ascii :=
  let n := nat_of_ascii c in
  if ((97 <=? n) && (n <=? 122))%nat then ascii_of_nat (n - 32) else c.

(** [String.prototype.toUpperCase], on ASCII. *)
Fixpoint toUpperCase (s : string) : string :=
  match s with
  | EmptyString => EmptyString
  | String c r => String (upper_ascii c) (toUpperCase r)
  end.

(** [ToString], as applied by a template literal.  An array is joined with
    commas, [null] and [undefined] elements giving the empty string.  A
    plain object prints through [Object.prototype.toString]; when it has an
    own property [toString] (data, hence not callable) neither [toString]
    nor the inherited [valueOf] yields a primitive and the conversion
    throws. *)
Fixpoint to_string (v : value) : completion string :=
  match v with
  | VUndefined => Normal "undefined"
  | VNull => Normal "null"
  | VBool true => Normal "true"
  | VBool false => Normal "false"
  | VNum n => Normal (NilZero.string_of_int (Z.to_int n))
  | VStr s => Normal s
  | VArr l =>
      (fix join (l : list value) : completion string :=
         match l with
         | [] => Normal ""
         | x :: r =>
             s <- match x with
                  | VUndefined | VNull => Normal ""
                  | _ => to_string x
                  end;;
             match r with
             | [] => Normal s
             | _ :: _ => t <- join r;; Normal (s ++ "," ++ t)%string
             end
         end) l
  | VObj ps =>
      match own "toString" ps with
      | Some _ => Throw TypeError
      | None => Normal "[object Object]"
      end
  end.

(** ** Map, with keys compared by SameValueZero and insertion order kept *)

(** SameValueZero differs from [===] on NaN and the zeros only, which the
    integers of the model do not have. *)
Definition same_key : value -> value -> bool := strict_eq.

Module JsMap.
Section Map.
Variable V : Type.

Definition t := list (value * V).

Fixpoint has (k : value) (m : t) : bool :=
  match m with
  | [] => false
  | (k', _) :: r => same_key k' k || has k r
  end.

Fixpoint get (k : value) (m : t) : option V :=
  match m with
  | [] => None
  | (k', v) :: r => if same_key k' k then Some v else get k r
  end.

(** An existing key keeps its place (and its key); a new key goes
    last. *)
Fixpoint set (k : value) (v : V) (m : t) : t :=
  match m with
  | [] => [(k, v)]
  | (k', v') :: r =>
      if same_key k' k then (k', v) :: r else (k', v') :: set k v r
  end.

Definition values (m : t) : list V := map snd m.
Definition keys (m : t) : list value := map fst m.
End Map.
Arguments has {V} k m.
Arguments get {V} k m.
Arguments set {V} k v m.
Arguments values {V} m.
Arguments keys {V} m.
End JsMap.

(** ** The analyzer *)

Record column : Type := {
  columnName : string;
  dataType : string
}.

(** [rowCount] is a sum of array lengths and ones: an integer, exact as a
    JavaScript number below 2^53. *)
Record tableInfo : Type := {
  tableName : value;
  columns : list column;
  rowCount : Z
}.

Record result : Type := {
  databaseName : value;
  totalTables : Z;
  tables : list tableInfo
}.

(** [extractTableName(tableRef)], lines 80-105.  [object_shape] is the
    part from line 95 on, reached when no earlier [return] was taken. *)
Definition extractTableName (tableRef : value) : completion value :=
  let object_shape :=
    if truthy tableRef && (typeof tableRef =? "object")%string then
      t <- get tableRef "table";;
      if (typeof t =? "string")%string then Normal t
      else if truthy t then
        tt <- get t "table";;
        if truthy tt then Normal tt else Normal VNull
      else Normal VNull
    else Normal VNull in
  if (typeof tableRef =? "string")%string then Normal tableRef
  else
    match tableRef with
    | VArr (firstTable :: _) =>
        if (typeof firstTable =? "string")%string then Normal firstTable
        else if truthy firstTable then
          t <- get firstTable "table";;
          if truthy t then
            if (typeof t =? "string")%string then Normal t else get t "table"
          else object_shape
        else object_shape
    | _ => object_shape
    end.

(** [extractColumnName(def)], lines 133-148.  Matching [VStr s] is the
    test [typeof ... === 'string']. *)
Definition extractColumnName (def : value) : completion string :=
  c <- get def "column";;
  match c with
  | VStr s => Normal s
  | _ =>
      if truthy c then
        cc <- get c "column";;
        match cc with
        | VStr s => Normal s
        | _ =>
            if truthy cc then
              ccc <- get cc "column";;
              match ccc with
              | VStr s => Normal s
              | _ => Normal "unknown"
              end
            else Normal "unknown"
        end
      else Normal "unknown"
  end.

(** [buildDataType(definition)], lines 155-197. *)
Definition buildDataType (definition : value) : completion string :=
  if negb (truthy definition) then Normal "unknown"
  else
    dt <- get definition "dataType";;
    (* lines 165-169 *)
    dataType <-
      match dt with
      | VStr s => Normal (toUpperCase s)
      | _ =>
          if truthy dt then
            dtdt <- get dt "dataType";;
            match dtdt with
            | VStr s => Normal (toUpperCase s)
            | _ => Normal "unknown"
            end
          else Normal "unknown"
      end;;
    (* lines 172-176 *)
    l <- get definition "length";;
    length <-
      (if defined l then Normal l
       else if truthy dt then
         dl <- get dt "length";;
         if defined dl then Normal dl else Normal VNull
       else Normal VNull);;
    (* lines 179-183 *)
    s <- get definition "scale";;
    scale <-
      (if defined s then Normal s
       else if truthy dt then
         ds <- get dt "scale";;
         if defined ds then Normal ds else Normal VNull
       else Normal VNull);;
    (* lines 186-196 *)
    if defined length then
      if defined scale then
        ls <- to_string length;;
        ss <- to_string scale;;
        Normal (dataType ++ "(" ++ ls ++ "," ++ ss ++ ")")%string
      else
        ls <- to_string length;;
        Normal (dataType ++ "(" ++ ls ++ ")")%string
    else Normal dataType.

(** [Array.prototype.filter] and [map], with callbacks that may throw. *)
Fixpoint filterM {A} (f : A -> completion bool) (l : list A)
  : completion (list A) :=
  match l with
  | [] => Normal []
  | x :: r =>
      b <- f x;;
      r' <- filterM f r;;
      Normal (if b then x :: r' else r')
  end.

Fixpoint mapM {A B} (f : A -> completion B) (l : list A)
  : completion (list B) :=
  match l with
  | [] => Normal []
  | x :: r =>
      y <- f x;;
      r' <- mapM f r;;
      Normal (y :: r')
  end.

(** The callback of [filter], line 118: [def && def.resource === 'column']. *)
Definition is_column_definition (def : value) : completion bool :=
  if truthy def then
    r <- get def "resource";;
    Normal (strict_eq r (VStr "column"))
  else Normal false.

(** The callback of [map], lines 119-125. *)
Definition column_of_definition (def : value) : completion column :=
  name <- extractColumnName def;;
  d <- get def "definition";;
  ty <- buildDataType d;;
  Normal {| columnName := name; dataType := ty |}.

(** [extractColumns(definitions)], lines 112-126. *)
Definition extractColumns (definitions : value) : completion (list column) :=
  match definitions with
  | VArr defs =>
      kept <- filterM is_column_definition defs;;
      mapM column_of_definition kept
  | _ => Normal []
  end.

(** What [analyzeSqlAst] accumulates: [result.databaseName] and
    [tableMap]. *)
Record state : Type := {
  st_databaseName : value;
  st_tableMap : JsMap.t tableInfo
}.

Definition add_rows (n : Z) (info : tableInfo) : tableInfo :=
  {| tableName := tableName info;
     columns := columns info;
     rowCount := rowCount info + n |}.

(** The callback of [statements.forEach], lines 24-66. *)
Definition process_statement (st : state) (statement : value)
  : completion state :=
  if negb (truthy statement) || negb (typeof statement =? "object")%string
  then Normal st
  else
    ty <- get statement "type";;
    if strict_eq ty (VStr "use") then
      db <- get statement "db";;
      if truthy db then
        name <-
          (if (typeof db =? "string")%string then Normal db
           else
             dbdb <- get db "db";;
             Normal (if truthy dbdb then dbdb else db));;
        Normal {| st_databaseName := name; st_tableMap := st_tableMap st |}
      else Normal st
    else if strict_eq ty (VStr "create") then
      kw <- get statement "keyword";;
      if strict_eq kw (VStr "table") then
        tbl <- get statement "table";;
        if truthy tbl then
          name <- extractTableName tbl;;
          if truthy name then
            defs <- get statement "create_definitions";;
            cols <- extractColumns defs;;
            let info :=
              {| tableName := name; columns := cols; rowCount := 0 |} in
            Normal {| st_databaseName := st_databaseName st;
                      st_tableMap := JsMap.set name info (st_tableMap st) |}
          else Normal st
        else Normal st
      else Normal st
    else if strict_eq ty (VStr "insert") then
      tbl <- get statement "table";;
      if truthy tbl then
        name <- extractTableName tbl;;
        if truthy name && JsMap.has name (st_tableMap st) then
          match JsMap.get name (st_tableMap st) with
          | Some info =>
              vals <- get statement "values";;
              let n :=
                if truthy vals && isArray vals then array_length vals
                else 1 in
              Normal {| st_databaseName := st_databaseName st;
                        st_tableMap :=
                          JsMap.set name (add_rows n info) (st_tableMap st) |}
          | None => Normal st
          end
        else Normal st
      else Normal st
    else Normal st.

(** [Array.prototype.forEach] threading the accumulated state; a throwing
    callback ends the loop. *)
Fixpoint forEach (f : state -> value -> completion state)
  (statements : list value) (st : state) : completion state :=
  match statements with
  | [] => Normal st
  | x :: r => st' <- f st x;; forEach f r st'
  end.

Definition initial_state : state :=
  {| st_databaseName := VNull; st_tableMap := [] |}.

(** Line 19: [Array.isArray(ast) ? ast : [ast]]. *)
Definition statements_of (ast : value) : list value :=
  match ast with
  | VArr l => l
  | _ => [ast]
  end.

Definition result_of (st : state) : result :=
  let tables := JsMap.values (st_tableMap st) in
  {| databaseName := st_databaseName st;
     totalTables := Z.of_nat (List.length tables);
     tables := tables |}.

(** [analyzeSqlAst(ast)], lines 11-73. *)
Definition analyzeSqlAst (ast : value) : completion result :=
  st <- forEach process_statement (statements_of ast) initial_state;;
  Normal (result_of st).

(** ** Building sample trees *)

Definition obj (ps : list (string * value)) : value := VObj ps.

(** The nodes of a tree of node-sql-parser. *)
Definition column_ref (name : string) : value :=
  obj [("type", VStr "column_ref"); ("table", VNull); ("column", VStr name)].

Definition expr_list (vs : list value) : value :=
  obj [("type", VStr "expr_list"); ("value", VArr vs)].

Definition number_lit (n : Z) : value :=
  obj [("type", VStr "number"); ("value", VNum n)].

Definition string_lit (s : string) : value :=
  obj [("type", VStr "single_quote_string"); ("value", VStr s)].

Definition table_list (name : string) : value :=
  VArr [obj [("db", VNull); ("table", VStr name)]].

Definition use_statement (db : value) : value :=
  obj [("type", VStr "use"); ("db", db)].

Definition create_table (table definitions : value) : value :=
  obj [("type", VStr "create"); ("keyword", VStr "table");
       ("table", table); ("create_definitions", definitions)].

Definition insert_into (table vals : value) : value :=
  obj [("type", VStr "insert"); ("table", table); ("columns", VNull);
       ("values", vals)].

Definition column_definition (name : string) (definition : value) : value :=
  obj [("column", column_ref name); ("definition", definition);
       ("resource", VStr "column")].

(** The tree of
    [USE shop; CREATE TABLE users(id INT, name VARCHAR(50));
     INSERT INTO users VALUES (1,'a'),(2,'b'); INSERT INTO users VALUES (3,'c');] *)
Definition shop_ast : value :=
  VArr
    [ use_statement (VStr "shop");
      create_table (table_list "users")
        (VArr
           [ column_definition "id" (obj [("dataType", VStr "INT")]);
             column_definition "name"
               (obj [("dataType", VStr "VARCHAR"); ("length", VNum 50)]) ]);
      insert_into (table_list "users")
        (VArr [ expr_list [number_lit 1; string_lit "a"];
                expr_list [number_lit 2; string_lit "b"] ]);
      insert_into (table_list "users")
        (VArr [ expr_list [number_lit 3; string_lit "c"] ]) ].

(** A table declared twice, with rows inserted after each declaration. *)
Definition first_users : value :=
  create_table (table_list "users")
    (VArr [column_definition "id" (obj [("dataType", VStr "INT")])]).

Definition second_users : value :=
  create_table (table_list "users")
    (VArr [ column_definition "name"
              (obj [("dataType", VStr "VARCHAR"); ("length", VNum 50)]) ]).

Definition two_rows : value :=
  insert_into (table_list "users")
    (VArr [ expr_list [number_lit 1]; expr_list [number_lit 2] ]).

Definition one_row : value :=
  insert_into (table_list "users") (VArr [ expr_list [string_lit "c"] ]).

(** A table reference whose innermost [table] field is a number. *)
Definition numbered_table : value :=
  obj [("table", obj [("table", VNum 42)])].

(** A declaration without a definition list, and a constraint entry. *)
Definition bare_create : value :=
  obj [("type", VStr "create"); ("keyword", VStr "table");
       ("table", table_list "logs")].

Definition primary_key_constraint : value :=
  obj [("constraint", VNull); ("definition", VArr [column_ref "id"]);
       ("constraint_type", VStr "primary key"); ("resource", VStr "constraint")].

(** A column whose declared type has a length and no tag. *)
Definition untyped_column : value :=
  column_definition "c" (obj [("length", VNum 5)]).

(** A column whose length is an object with an own property [toString]. *)
Definition unprintable_column : value :=
  column_definition "c" (obj [("length", obj [("toString", VNum 0)])]).

(** A column definition without name and type. *)
Definition anonymous_column : value :=
  obj [("resource", VStr "column")].

(** ** Reading the result against the statement list *)

(** A property read that cannot throw: [undefined] where [get] throws. *)
Definition field (v : value) (k : string) : value :=
  match get v k with
  | Normal w => w
  | Throw _ => VUndefined
  end.

(** What one statement contributes: a database name, a table
    declaration, rows for a table, or nothing. *)
Inductive effect : Type :=
| Use (name : value)
| Create (name : value) (cols : list column)
| Insert (name : value) (rows : Z)
| Skip.

(** The target of a [use] statement whose [db] field is [db]. *)
Definition use_target (db : value) : value :=
  match db with
  | VStr _ => db
  | _ => if truthy (field db "db") then field db "db" else db
  end.

(** The number of value tuples of an [insert] statement. *)
Definition value_tuples (vals : value) : Z :=
  match vals with
  | VArr rows => Z.of_nat (List.length rows)
  | _ => 1
  end.

Definition effect_of (statement : value) : completion effect :=
  match statement with
  | VObj _ =>
      let kind := field statement "type" in
      let tbl := field statement "table" in
      if strict_eq kind (VStr "use") then
        if truthy (field statement "db")
        then Normal (Use (use_target (field statement "db")))
        else Normal Skip
      else if strict_eq kind (VStr "create") then
        if strict_eq (field statement "keyword") (VStr "table") && truthy tbl
        then
          name <- extractTableName tbl;;
          if truthy name then
            cols <- extractColumns (field statement "create_definitions");;
            Normal (Create name cols)
          else Normal Skip
        else Normal Skip
      else if strict_eq kind (VStr "insert") then
        if truthy tbl then
          name <- extractTableName tbl;;
          if truthy name
          then Normal (Insert name (value_tuples (field statement "values")))
          else Normal Skip
        else Normal Skip
      else Normal Skip
  | _ => Normal Skip
  end.

Definition apply_effect (e : effect) (st : state) : state :=
  match e with
  | Use name =>
      {| st_databaseName := name; st_tableMap := st_tableMap st |}
  | Create name cols =>
      {| st_databaseName := st_databaseName st;
         st_tableMap :=
           JsMap.set name
             {| tableName := name; columns := cols; rowCount := 0 |}
             (st_tableMap st) |}
  | Insert name rows =>
      match JsMap.get name (st_tableMap st) with
      | Some info =>
          {| st_databaseName := st_databaseName st;
             st_tableMap :=
               JsMap.set name (add_rows rows info) (st_tableMap st) |}
      | None => st
      end
  | Skip => st
  end.

(** [statement] declares the table [name]. *)
Definition creates (name statement : value) : bool :=
  match effect_of statement with
  | Normal (Create n _) => same_key n name
  | _ => false
  end.

(** The rows [statement] inserts into the table [name]. *)
Definition rows_into (name statement : value) : Z :=
  match effect_of statement with
  | Normal (Insert n rows) => if same_key name n then rows else 0
  | _ => 0
  end.

Definition inserted_rows (name : value) (statements : list value) : Z :=
  fold_right Z.add 0 (map (rows_into name) statements).

Definition no_create (name : value) (statements : list value) : Prop :=
  Forall (fun s => creates name s = false) statements.

(** The names of the tables declared, one per declaration, in order. *)
Definition created_names (statements : list value) : list value :=
  flat_map
    (fun s =>
       match effect_of s with
       | Normal (Create n _) => [n]
       | _ => []
       end)
    statements.

(** A list of keys without the later repetitions of a key. *)
Fixpoint first_occurrences (l : list value) : list value :=
  match l with
  | [] => []
  | x :: r => x :: filter (fun y => negb (same_key x y)) (first_occurrences r)
  end.

(** The target of the last [use] statement that has one. *)
Fixpoint last_use (statements : list value) : option value :=
  match statements with
  | [] => None
  | s :: r =>
      match last_use r with
      | Some v => Some v
      | None =>
          match effect_of s with
          | Normal (Use v) => Some v
          | _ => None
          end
      end
  end.

(** [statement] is the declaration the table [info] of the result stems
    from: nothing after it declares the name again, and the rows are those
    inserted after it. *)
Definition declared_by (statements : list value) (info : tableInfo) : Prop :=
  exists before s after,
    statements = before ++ s :: after /\
    effect_of s = Normal (Create (tableName info) (columns info)) /\
    no_create (tableName info) after /\
    rowCount info = inserted_rows (tableName info) after.

(** No object of the tree has an own property [toString]: what makes
    [to_string] throw. *)
Fixpoint no_own_toString (v : value) : bool :=
  match v with
  | VArr l => forallb no_own_toString l
  | VObj ps =>
      match own "toString" ps with Some _ => false | None => true end
      && forallb (fun kv => no_own_toString (snd kv)) ps
  | _ => true
  end.

(** The entries of a definition list that describe a column. *)
Definition retained (def : value) : bool :=
  truthy def && strict_eq (field def "resource") (VStr "column").

(** No two keys of the list are the same key. *)
Definition distinct_keys (ks : list value) : Prop :=
  ForallOrdPairs (fun a b => same_key a b = false) ks.

(** What holds of the accumulated state once [statements] are processed. *)
Definition invariant (statements : list value) (st : state) : Prop :=
  JsMap.keys (st_tableMap st) = first_occurrences (created_names statements)
  /\ Forall
       (fun kv => tableName (snd kv) = fst kv /\ declared_by statements (snd kv))
       (st_tableMap st)
  /\ st_databaseName st
     = match last_use statements with Some v => v | None => VNull end.

(** A top-level input that is neither a sequence nor a statement object:
    no object at all, or an object whose [type] is none of the kinds the
    analyzer knows. *)
Definition malformed (ast : value) : bool :=
  match ast with
  | VArr _ => false
  | VObj _ =>
      negb (strict_eq (field ast "type") (VStr "use")
            || strict_eq (field ast "type") (VStr "create")
            || strict_eq (field ast "type") (VStr "insert"))
  | _ => true
  end.

Definition empty_result : result :=
  {| databaseName := VNull; totalTables := 0; tables := [] |}.

(** *** The shapes of a table reference, a column name and a type *)

Definition is_string (v : value) : bool :=
  match v with VStr _ => true | _ => false end.

(** The shapes under which [extractTableName] finds the string [s]. *)
Inductive table_shape : value -> string -> Prop :=
| shape_string s :
    table_shape (VStr s) s
| shape_first_string s rest :
    table_shape (VArr (VStr s :: rest)) s
| shape_first_table fps rest s :
    field (VObj fps) "table" = VStr s -> s <> ""%string ->
    table_shape (VArr (VObj fps :: rest)) s
| shape_first_nested fps tps rest s :
    field (VObj fps) "table" = VObj tps ->
    field (VObj tps) "table" = VStr s ->
    table_shape (VArr (VObj fps :: rest)) s
| shape_table ps s :
    field (VObj ps) "table" = VStr s ->
    table_shape (VObj ps) s
| shape_nested ps tps s :
    field (VObj ps) "table" = VObj tps ->
    field (VObj tps) "table" = VStr s -> s <> ""%string ->
    table_shape (VObj ps) s.

(** The shapes (a) to (d) of the specification. *)
Inductive documented_shape : value -> string -> Prop :=
| documented_a s :
    documented_shape (VStr s) s
| documented_b first rest s :
    object_with_table first s ->
    documented_shape (VArr (first :: rest)) s
| documented_cd v s :
    object_with_table v s ->
    documented_shape v s
with object_with_table : value -> string -> Prop :=
| documented_c ps s :
    field (VObj ps) "table" = VStr s ->
    object_with_table (VObj ps) s
| documented_d ps ps' s :
    field (VObj ps) "table" = VObj ps' ->
    field (VObj ps') "table" = VStr s ->
    object_with_table (VObj ps) s.

(** The column name of a definition: a string under [column], at depth
    one, two or three. *)
Definition named_column (def : value) : option string :=
  match field def "column" with
  | VStr s => Some s
  | c =>
      match field c "column" with
      | VStr s => Some s
      | cc =>
          match field cc "column" with
          | VStr s => Some s
          | _ => None
          end
      end
  end.

(** The base type tag of a declared type: a string under [dataType], at
    depth one or two. *)
Definition type_tag (definition : value) : option string :=
  match field definition "dataType" with
  | VStr s => Some s
  | dt =>
      match field dt "dataType" with
      | VStr s => Some s
      | _ => None
      end
  end.

(** A length (or scale) found on the declared type or, failing that, on
    its [dataType] field. *)
Definition found (definition : value) (k : string) : option value :=
  if defined (field definition k) then Some (field definition k)
  else
    let dt := field definition "dataType" in
    if truthy dt && defined (field dt k) then Some (field dt k) else None.

Definition base_type (definition : value) : string :=
  match type_tag definition with
  | Some s => toUpperCase s
  | None => "unknown"
  end.

(** The composition rule: [base(length,scale)], [base(length)] or [base]. *)
Definition with_suffix (base : string) (length scale : option value)
  : completion string :=
  match length, scale with
  | Some l, Some s =>
      ls <- to_string l;;
      ss <- to_string s;;
      Normal (base ++ "(" ++ ls ++ "," ++ ss ++ ")")%string
  | Some l, None =>
      ls <- to_string l;;
      Normal (base ++ "(" ++ ls ++ ")")%string
  | None, _ => Normal base
  end.

(** ** Statements without effect, references without name *)

(** A statement the loop leaves without any effect: no object, an object
    of another [type], a [use] without [db], a [create] that is not a
    [create table] or has no [table], an [insert] without [table]. *)
Definition skipped (statement : value) : bool :=
  match statement with
  | VObj _ =>
      let kind := field statement "type" in
      if strict_eq kind (VStr "use") then
        negb (truthy (field statement "db"))
      else if strict_eq kind (VStr "create") then
        negb (strict_eq (field statement "keyword") (VStr "table")
              && truthy (field statement "table"))
      else if strict_eq kind (VStr "insert") then
        negb (truthy (field statement "table"))
      else true
  | _ => true
  end.

(** A table reference that holds no name at all: a primitive other than a
    string, an empty sequence, an object without [table] property. *)
Definition no_table_reference (tableRef : value) : bool :=
  match tableRef with
  | VUndefined | VNull | VBool _ | VNum _ => true
  | VStr _ => false
  | VArr l => match l with [] => true | _ :: _ => false end
  | VObj ps => match own "table" ps with None => true | Some _ => false end
  end.

(** The name a column definition gets. *)
Definition column_name_of (def : value) : string :=
  match named_column def with
  | Some s => s
  | None => "unknown"
  end.

(** The keys, names and columns of the tables of a map: all but the row
    counts. *)
Definition schema_of (m : JsMap.t tableInfo)
  : list (value * (value * list column)) :=
  map (fun kv => (fst kv, (tableName (snd kv), columns (snd kv)))) m.

(** The value tuples of all insert statements that name a table. *)
Definition dump_rows (statements : list value) : Z :=
  fold_right Z.add 0
    (map (fun s =>
            match effect_of s with
            | Normal (Insert _ rows) => rows
            | _ => 0
            end)
       statements).

(** A [CREATE DATABASE] statement. *)
Definition create_database (name : string) : value :=
  obj [("type", VStr "create"); ("keyword", VStr "database");
       ("database", VStr name)].

(** ** The dashboard of the renderer (renderer.js, displayAnalysisResults)

    The values the renderer computes from an analysis before it writes
    them into the page. *)

(** Line 106: [analysis.databaseName || 'Unknown']. *)
Definition shown_database_name (analysis : result) : value :=
  if truthy (databaseName analysis) then databaseName analysis
  else VStr "Unknown".

(** Line 110:
    [analysis.tables.reduce((sum, table) => sum + table.columns.length, 0)]. *)
Definition totalColumns (analysis : result) : Z :=
  fold_left (fun sum table => sum + Z.of_nat (List.length (columns table)))
    (tables analysis) 0.

(** Line 114:
    [analysis.tables.reduce((sum, table) => sum + table.rowCount, 0)]. *)
Definition totalRecords (analysis : result) : Z :=
  fold_left (fun sum table => sum + rowCount table) (tables analysis) 0.

(** The sum of the row counts of a map. *)
Definition sum_rows (m : JsMap.t tableInfo) : Z :=
  fold_right Z.add 0 (map (fun kv => rowCount (snd kv)) m).

(** A decimal number, as [to_string] prints it. *)
Definition decimal (n : Z) : string := NilZero.string_of_int (Z.to_int n).

(** Column definitions of a table with a key, a name and a price. *)
Definition item_definitions : list value :=
  [ column_definition "id" (obj [("dataType", obj [("dataType", VStr "INT")])]);
    primary_key_constraint;
    column_definition "name"
      (obj [("dataType", VStr "VARCHAR"); ("length", VNum 50)]);
    column_definition "price"
      (obj [("dataType", VStr "DECIMAL"); ("length", VNum 10);
            ("scale", VNum 2)]) ].

(** The shapes of a table reference with the name [s]: the shapes (a) to
    (d), and a sequence whose first element is the string [s] itself. *)
Definition reference_shape (tableRef : value) (s : string) : Prop :=
  documented_shape tableRef s
  \/ exists rest, tableRef = VArr (VStr s :: rest).

(** The [table] field of a reference object, or of the first element of a
    reference sequence. *)
Definition table_holder (tableRef : value) : value :=
  field (match tableRef with VArr (first :: _) => first | _ => tableRef end)
    "table".

(** A string of ASCII characters. *)
Fixpoint ascii_only (s : string) : bool :=
  match s with
  | EmptyString => true
  | String c r => (nat_of_ascii c <? 128)%nat && ascii_only r
  end.

(** * Properties *)

(** ** Values, keys and property reads *)

Lemma strict_eq_eq a b : strict_eq a b = true -> a = b.
Proof.
  destruct a, b; simpl; try discriminate; intros H; try reflexivity.
  - apply Bool.eqb_prop in H. now subst.
  - apply Z.eqb_eq in H. now subst.
  - apply String.eqb_eq in H. now subst.
Qed.

Lemma same_key_eq a b : same_key a b = true -> a = b.
Proof. apply strict_eq_eq. Qed.

Lemma same_key_sym a b : same_key a b = same_key b a.
Proof.
  destruct (same_key a b) eqn:E.
  - apply same_key_eq in E as E'. subst. now rewrite E.
  - destruct (same_key b a) eqn:E'; [|reflexivity].
    apply same_key_eq in E' as E''. subst. congruence.
Qed.

Lemma same_key_trans a b c :
  same_key a b = true -> same_key b c = true -> same_key a c = true.
Proof. intros H1 H2. apply same_key_eq in H1. now subst. Qed.

Lemma get_field v k : truthy v = true -> get v k = Normal (field v k).
Proof. destruct v; simpl; try discriminate; reflexivity. Qed.

Lemma get_object ps k : get (VObj ps) k = Normal (field (VObj ps) k).
Proof. reflexivity. Qed.

Lemma typeof_string v :
  (typeof v =? "string")%string = is_string v.
Proof. destruct v; reflexivity. Qed.

Lemma is_string_inv v : is_string v = true -> exists s, v = VStr s.
Proof. destruct v; simpl; try discriminate. eauto. Qed.

Lemma own_In k ps w : own k ps = Some w -> In (k, w) ps.
Proof.
  induction ps as [|[k' v] r IH]; simpl; [discriminate|].
  destruct (own k r) eqn:E.
  - intros [= ->]. right. now apply IH.
  - destruct (String.eqb_spec k k'); [|discriminate].
    intros [= ->]. subst. now left.
Qed.

Lemma no_own_toString_field v k :
  no_own_toString v = true -> no_own_toString (field v k) = true.
Proof.
  destruct v; try reflexivity.
  - unfold field; simpl. now destruct (k =? "length")%string.
  - unfold field; simpl. now destruct (k =? "length")%string.
  - unfold field. simpl get. intros H. simpl in H.
    apply andb_prop in H as [_ H].
    destruct (own k properties) eqn:E; [|reflexivity].
    apply own_In in E. rewrite forallb_forall in H.
    apply (H (k, v)). exact E.
Qed.

Lemma bind_normal {A B} (c : completion A) (k : A -> completion B) b :
  bind c k = Normal b -> exists a, c = Normal a /\ k a = Normal b.
Proof. destruct c; simpl; [eauto|discriminate]. Qed.

(** ** String conversion *)

Lemma to_string_total v :
  no_own_toString v = true -> exists s, to_string v = Normal s.
Proof.
  induction v as [| |b|n|s|l IH|ps _] using value_ind; simpl; intros H;
    eauto.
  - destruct b; eauto.
  - induction IH as [|x r Hx _ IHr]; [eauto|].
    simpl in H. apply andb_prop in H as [H1 H2].
    destruct (IHr H2) as [t Ht].
    assert (exists s,
               match x with
               | VUndefined | VNull => Normal ""%string
               | _ => to_string x
               end = Normal s) as [s Hs].
    { destruct x; eauto. }
    rewrite Hs. simpl bind.
    destruct r; [eauto|].
    rewrite Ht. simpl. eauto.
  - apply andb_prop in H as [H _].
    destruct (own "toString" ps); [discriminate|eauto].
Qed.

(** ** The type-string builder *)

Lemma guarded_get {A} v k (f : value -> completion A) (z : completion A) :
  (if truthy v then x <- get v k;; f x else z) =
  (if truthy v then f (field v k) else z).
Proof. destruct (truthy v) eqn:E; [rewrite get_field by exact E|]; reflexivity. Qed.

Ltac split_ifs :=
  repeat match goal with
    | |- context [if ?c then _ else _] => destruct c eqn:?
    end.

Lemma buildDataType_eq d :
  truthy d = true ->
  buildDataType d =
    with_suffix (base_type d) (found d "length") (found d "scale").
Proof.
  intros Hd. unfold buildDataType.
  rewrite Hd. cbn [negb]. cbv iota.
  rewrite !(get_field d) by exact Hd. cbn [bind].
  rewrite !guarded_get.
  unfold base_type, type_tag, found.
  set (dt := field d "dataType"). set (l := field d "length").
  set (s := field d "scale").
  destruct (truthy dt) eqn:Et, (defined l) eqn:El, (defined s) eqn:Es;
    cbn [andb bind].
  all: destruct (defined (field dt "length")) eqn:Edl;
    destruct (defined (field dt "scale")) eqn:Eds; cbn [bind].
  all: rewrite ?El, ?Es, ?Edl, ?Eds.
  all: destruct dt eqn:Edt; cbn [bind]; try reflexivity.
  all: try discriminate Et.
  all: try (match goal with
            | |- context [match field ?v ?k with _ => _ end] =>
                destruct (field v k)
            end; reflexivity).
Qed.

Lemma with_suffix_total base l s :
  match l with Some v => no_own_toString v = true | None => True end ->
  match s with Some v => no_own_toString v = true | None => True end ->
  exists r, with_suffix base l s = Normal r.
Proof.
  intros Hl Hs. unfold with_suffix.
  destruct l as [l|]; [|eauto].
  destruct (to_string_total l Hl) as [ls ->].
  destruct s as [s|]; cbn [bind]; [|eauto].
  destruct (to_string_total s Hs) as [ss ->]. cbn [bind]. eauto.
Qed.

Lemma found_no_own_toString d k :
  no_own_toString d = true ->
  match found d k with Some v => no_own_toString v = true | None => True end.
Proof.
  intros H. unfold found.
  destruct (defined (field d k)).
  - now apply no_own_toString_field.
  - destruct (truthy (field d "dataType") && defined (field (field d "dataType") k));
      [|exact I].
    now do 2 apply no_own_toString_field.
Qed.

Lemma buildDataType_total d :
  no_own_toString d = true -> exists s, buildDataType d = Normal s.
Proof.
  intros H. destruct (truthy d) eqn:Hd.
  - rewrite buildDataType_eq by exact Hd.
    apply with_suffix_total; now apply found_no_own_toString.
  - unfold buildDataType. rewrite Hd. cbn. eauto.
Qed.

(** ** Column names *)

Lemma extractColumnName_eq def :
  truthy def = true ->
  extractColumnName def =
    Normal (match named_column def with Some s => s | None => "unknown"%string end).
Proof.
  intros Hd. unfold extractColumnName, named_column.
  rewrite (get_field def) by exact Hd. cbn [bind].
  set (c := field def "column").
  assert (Hc : forall A (f : value -> completion A) z,
             (if truthy c then cc <- get c "column";; f cc else z)
             = (if truthy c then f (field c "column") else z))
    by (intros; apply guarded_get).
  destruct c eqn:Ec; try reflexivity; rewrite Hc; clear Hc.
  all: match goal with
       | |- (if truthy ?v then _ else _) = _ => destruct (truthy v) eqn:Et
       end.
  all: try discriminate Et.
  all: try (cbn in Et; try discriminate Et; cbn [field get]; reflexivity).
  set (cc := field (VObj properties) "column").
  assert (Hcc : forall A (f : value -> completion A) z,
             (if truthy cc then ccc <- get cc "column";; f ccc else z)
             = (if truthy cc then f (field cc "column") else z))
    by (intros; apply guarded_get).
  destruct cc eqn:Ecc; try reflexivity; rewrite Hcc; clear Hcc.
  all: match goal with
       | |- (if truthy ?v then _ else _) = _ => destruct (truthy v) eqn:Et'
       end.
  all: try discriminate Et'.
  all: try (cbn in Et'; try discriminate Et'; cbn [field get]; reflexivity).
  all: match goal with
       | |- context [field ?v "column"] => destruct (field v "column")
       end; reflexivity.
Qed.

(** ** Table names *)

Lemma extractTableName_total v : exists w, extractTableName v = Normal w.
Proof.
  assert (Hobj : forall u, exists w,
    (if truthy u && (typeof u =? "object")%string then
      t <- get u "table";;
      if (typeof t =? "string")%string then Normal t
      else if truthy t then
        tt <- get t "table";;
        if truthy tt then Normal tt else Normal VNull
      else Normal VNull
    else Normal VNull) = Normal w).
  { intros u. destruct (truthy u) eqn:Hu; cbn [andb]; [|eauto].
    destruct (typeof u =? "object")%string; [|eauto].
    rewrite (get_field u) by exact Hu. cbn [bind].
    destruct (typeof (field u "table") =? "string")%string; [eauto|].
    rewrite guarded_get. split_ifs; eauto. }
  unfold extractTableName.
  destruct (typeof v =? "string")%string; [eauto|].
  destruct v as [| | | | |[|first rest]|]; try apply Hobj.
  destruct (typeof first =? "string")%string; [eauto|].
  destruct (truthy first) eqn:Hf; [|apply Hobj].
  rewrite (get_field first) by exact Hf. cbn [bind].
  destruct (truthy (field first "table")) eqn:Ht; [|apply Hobj].
  destruct (typeof (field first "table") =? "string")%string; [eauto|].
  rewrite get_field by exact Ht. eauto.
Qed.

Lemma truthy_string s : truthy (VStr s) = true <-> s <> ""%string.
Proof.
  simpl. destruct (String.eqb_spec s ""); simpl; split; intros; congruence.
Qed.

Lemma field_string_object t s :
  field t "table" = VStr s -> exists ps, t = VObj ps.
Proof. destruct t; try discriminate. eauto. Qed.

Lemma field_object_object t ps :
  field t "table" = VObj ps -> exists ps', t = VObj ps'.
Proof. destruct t; try discriminate. eauto. Qed.

Lemma extractTableName_shape v s :
  extractTableName v = Normal (VStr s) -> table_shape v s.
Proof.
  unfold extractTableName. rewrite typeof_string.
  destruct v as [| |b|n|s0|[|first rest]|ps]; cbn [is_string].
  - cbn. discriminate.
  - cbn. discriminate.
  - cbn. destruct b; discriminate.
  - cbn. destruct (negb (n =? 0)); discriminate.
  - intros [= ->]. constructor.
  - cbn. discriminate.
  - rewrite typeof_string.
    destruct (is_string first) eqn:Hs.
    { apply is_string_inv in Hs as [s1 ->]. intros [= ->]. constructor. }
    destruct (truthy first) eqn:Hf; [|cbn; discriminate].
    rewrite (get_field first) by exact Hf. cbn [bind].
    destruct (truthy (field first "table")) eqn:Ht; [|cbn; discriminate].
    rewrite typeof_string.
    destruct (is_string (field first "table")) eqn:Hts.
    + intros [= H]. destruct (field_string_object _ _ H) as [fps ->].
      apply shape_first_table; [exact H|].
      apply truthy_string. now rewrite <- H.
    + rewrite get_field by exact Ht. intros [= H].
      destruct (field_string_object _ _ H) as [tps Htps].
      destruct (field_object_object _ _ Htps) as [fps ->].
      rewrite Htps in H. now apply shape_first_nested with tps.
  - cbn [truthy typeof andb String.eqb Ascii.eqb Bool.eqb].
    rewrite get_object. cbn [bind]. rewrite typeof_string.
    destruct (is_string (field (VObj ps) "table")) eqn:Hts.
    + intros [= H]. now apply shape_table.
    + rewrite guarded_get.
      destruct (truthy (field (VObj ps) "table")) eqn:Ht; [|discriminate].
      destruct (truthy (field (field (VObj ps) "table") "table")) eqn:Htt;
        [|discriminate].
      intros [= H]. destruct (field_string_object _ _ H) as [tps Htps].
      rewrite Htps in H. apply shape_nested with tps; auto.
      apply truthy_string. rewrite <- H, <- Htps. exact Htt.
Qed.

Lemma shape_extractTableName v s :
  table_shape v s -> extractTableName v = Normal (VStr s).
Proof.
  intros H. unfold extractTableName. rewrite typeof_string.
  destruct H as [s|s rest|fps rest s Ht Hs|fps tps rest s Ht Htt
                |ps s Ht|ps tps s Ht Htt Hs]; cbn [is_string].
  - reflexivity.
  - reflexivity.
  - cbn [typeof truthy String.eqb Ascii.eqb Bool.eqb].
    rewrite get_object. cbn [bind].
    rewrite Ht. apply truthy_string in Hs. rewrite Hs. reflexivity.
  - cbn [typeof truthy String.eqb Ascii.eqb Bool.eqb].
    rewrite get_object. cbn [bind].
    rewrite Ht. cbn [typeof truthy String.eqb Ascii.eqb Bool.eqb].
    rewrite get_object. now rewrite Htt.
  - cbn [truthy typeof andb String.eqb Ascii.eqb Bool.eqb].
    rewrite get_object. cbn [bind]. now rewrite Ht.
  - cbn [truthy typeof andb String.eqb Ascii.eqb Bool.eqb].
    rewrite get_object. cbn [bind]. rewrite Ht.
    cbn [typeof truthy String.eqb Ascii.eqb Bool.eqb].
    rewrite get_object. cbn [bind]. rewrite Htt.
    apply truthy_string in Hs. now rewrite Hs.
Qed.

(** ** The map *)

Lemma has_get_none {V} k (m : JsMap.t V) :
  JsMap.has k m = false -> JsMap.get k m = None.
Proof.
  induction m as [|[k' v] r IH]; simpl; [reflexivity|].
  destruct (same_key k' k); simpl; [discriminate|exact IH].
Qed.

Lemma has_keys {V} k (m : JsMap.t V) :
  JsMap.has k m = existsb (fun k' => same_key k' k) (JsMap.keys m).
Proof.
  induction m as [|[k' v] r IH]; simpl; [reflexivity|]. now rewrite IH.
Qed.

(** ** One statement *)

Lemma value_tuples_eq vals :
  (if truthy vals && isArray vals then array_length vals else 1)
  = value_tuples vals.
Proof.
  destruct vals as [| |b|n|s|l|ps]; simpl; try reflexivity.
  - now destruct b.
  - now destruct (negb (n =? 0)).
  - now destruct (negb (s =? "")%string).
Qed.

Lemma process_statement_effect st s :
  process_statement st s = (e <- effect_of s;; Normal (apply_effect e st)).
Proof.
  unfold process_statement, effect_of.
  destruct s as [| |b|n|s0|l|ps]; try reflexivity.
  - now destruct b.
  - cbn. now destruct (negb (n =? 0)).
  - cbn. now destruct (negb (s0 =? "")%string).
  - cbn [truthy typeof negb orb String.eqb Ascii.eqb Bool.eqb].
    rewrite !get_object. cbn [bind].
    destruct (strict_eq (field (VObj ps) "type") (VStr "use")).
    { destruct (truthy (field (VObj ps) "db")) eqn:Hdb; [|reflexivity].
      rewrite typeof_string. unfold use_target.
      set (db := field (VObj ps) "db") in *.
      rewrite (get_field db "db") by exact Hdb.
      destruct db; reflexivity. }
    destruct (strict_eq (field (VObj ps) "type") (VStr "create")).
    { destruct (strict_eq (field (VObj ps) "keyword") (VStr "table"));
        [|reflexivity].
      cbn [andb].
      destruct (truthy (field (VObj ps) "table")); [|reflexivity].
      destruct (extractTableName_total (field (VObj ps) "table")) as [name ->].
      cbn [bind].
      destruct (truthy name); [|reflexivity].
      destruct (extractColumns (field (VObj ps) "create_definitions"));
        reflexivity. }
    destruct (strict_eq (field (VObj ps) "type") (VStr "insert"));
      [|reflexivity].
    destruct (truthy (field (VObj ps) "table")); [|reflexivity].
    destruct (extractTableName_total (field (VObj ps) "table")) as [name ->].
    cbn [bind].
    destruct (truthy name); [|reflexivity]. cbn [andb bind apply_effect].
    destruct (JsMap.has name (st_tableMap st)) eqn:Hhas.
    + destruct (JsMap.get name (st_tableMap st)); [|reflexivity].
      now rewrite value_tuples_eq.
    + now rewrite (has_get_none _ _ Hhas).
Qed.

Lemma set_new {V} k (v : V) m :
  JsMap.has k m = false -> JsMap.set k v m = m ++ [(k, v)].
Proof.
  induction m as [|[k' v'] r IH]; simpl; [reflexivity|].
  destruct (same_key k' k); simpl; [discriminate|].
  intros H. now rewrite IH.
Qed.

Lemma distinct_keys_cons k ks :
  distinct_keys (k :: ks) <->
  Forall (fun b => same_key k b = false) ks /\ distinct_keys ks.
Proof.
  split.
  - intros H. inversion H; subst. now split.
  - intros [H1 H2]. now constructor.
Qed.

Lemma set_existing {V} k (v : V) m :
  distinct_keys (JsMap.keys m) -> JsMap.has k m = true ->
  JsMap.set k v m
  = map (fun kv => if same_key (fst kv) k then (fst kv, v) else kv) m.
Proof.
  induction m as [|[k' v'] r IH]; simpl; [discriminate|].
  intros Hd Hh. apply distinct_keys_cons in Hd as [Hk Hd].
  destruct (same_key k' k) eqn:E; simpl.
  - f_equal. apply same_key_eq in E. subst k'.
    clear IH Hh Hd. induction r as [|[k2 v2] r IH]; [reflexivity|].
    simpl in *. inversion Hk as [|? ? Hk2 Hr]; subst.
    rewrite same_key_sym in Hk2. rewrite Hk2. f_equal. now apply IH.
  - f_equal. now apply IH.
Qed.

Lemma keys_set {V} k (v : V) m :
  JsMap.keys (JsMap.set k v m)
  = if JsMap.has k m then JsMap.keys m else JsMap.keys m ++ [k].
Proof.
  induction m as [|[k' v'] r IH]; simpl; [reflexivity|].
  destruct (same_key k' k); simpl; [reflexivity|].
  rewrite IH. now destruct (JsMap.has k r).
Qed.

Lemma set_get_map k rows (m : JsMap.t tableInfo) :
  distinct_keys (JsMap.keys m) ->
  match JsMap.get k m with
  | Some info => JsMap.set k (add_rows rows info) m
  | None => m
  end
  = map (fun kv =>
           if same_key (fst kv) k then (fst kv, add_rows rows (snd kv)) else kv)
      m.
Proof.
  induction m as [|[k' v'] r IH]; simpl; [reflexivity|].
  intros Hd. apply distinct_keys_cons in Hd as [Hk Hd].
  destruct (same_key k' k) eqn:E; simpl.
  - f_equal. apply same_key_eq in E. subst k'.
    clear IH Hd. induction r as [|[k2 v2] r IH]; [reflexivity|].
    simpl in *. inversion Hk as [|? ? Hk2 Hr]; subst.
    rewrite same_key_sym in Hk2. rewrite Hk2. f_equal. now apply IH.
  - specialize (IH Hd). destruct (JsMap.get k r); cbn [JsMap.set].
    + now rewrite IH.
    + now rewrite <- IH.
Qed.

(** ** Lists of keys *)

Lemma existsb_filter_other x a l :
  same_key a x = false ->
  existsb (fun y => same_key y x) (filter (fun y => negb (same_key a y)) l)
  = existsb (fun y => same_key y x) l.
Proof.
  intros Hax. induction l as [|b r IH]; simpl; [reflexivity|].
  destruct (same_key a b) eqn:Eab; simpl.
  - apply same_key_eq in Eab. subst b. now rewrite Hax.
  - now rewrite IH.
Qed.

Lemma existsb_first_occurrences x l :
  existsb (fun y => same_key y x) (first_occurrences l)
  = existsb (fun y => same_key y x) l.
Proof.
  induction l as [|a r IH]; simpl; [reflexivity|].
  destruct (same_key a x) eqn:E; simpl; [reflexivity|].
  now rewrite existsb_filter_other.
Qed.

Lemma first_occurrences_snoc l x :
  first_occurrences (l ++ [x])
  = if existsb (fun y => same_key y x) l
    then first_occurrences l
    else first_occurrences l ++ [x].
Proof.
  induction l as [|a r IH]; simpl; [reflexivity|].
  rewrite IH. destruct (same_key a x) eqn:E; simpl.
  - destruct (existsb (fun y => same_key y x) r); [reflexivity|].
    rewrite filter_app. simpl. rewrite E. simpl. now rewrite app_nil_r.
  - destruct (existsb (fun y => same_key y x) r); [reflexivity|].
    rewrite filter_app. simpl. now rewrite E.
Qed.

Lemma distinct_keys_filter f l :
  distinct_keys l -> distinct_keys (filter f l).
Proof.
  induction l as [|a r IH]; simpl; [auto|].
  intros H. apply distinct_keys_cons in H as [Ha Hr].
  destruct (f a); [|auto].
  apply distinct_keys_cons. split; [|auto].
  rewrite Forall_forall in *. intros b Hb. apply filter_In in Hb as [Hb _]. auto.
Qed.

Lemma first_occurrences_distinct l : distinct_keys (first_occurrences l).
Proof.
  induction l as [|a r IH]; simpl; [constructor|].
  apply distinct_keys_cons. split.
  - apply Forall_forall. intros b Hb. apply filter_In in Hb as [_ Hb].
    now destruct (same_key a b).
  - now apply distinct_keys_filter.
Qed.

(** ** Lists of statements *)

Lemma created_names_snoc l s :
  created_names (l ++ [s])
  = created_names l
    ++ match effect_of s with Normal (Create n _) => [n] | _ => [] end.
Proof. unfold created_names. rewrite flat_map_app. simpl. now rewrite app_nil_r. Qed.

Lemma last_use_snoc l s :
  last_use (l ++ [s])
  = match effect_of s with Normal (Use v) => Some v | _ => last_use l end.
Proof.
  induction l as [|a r IH]; simpl.
  - now destruct (effect_of s) as [[]|].
  - rewrite IH. destruct (effect_of s) as [[]|]; reflexivity.
Qed.

Lemma inserted_rows_snoc name l s :
  inserted_rows name (l ++ [s]) = inserted_rows name l + rows_into name s.
Proof.
  unfold inserted_rows. induction l as [|a r IH]; simpl; [lia|].
  rewrite IH. lia.
Qed.

Lemma add_rows_0 info : add_rows 0 info = info.
Proof. destruct info. unfold add_rows. simpl. f_equal. lia. Qed.

Lemma declared_by_snoc l s info :
  declared_by l info ->
  creates (tableName info) s = false ->
  declared_by (l ++ [s]) (add_rows (rows_into (tableName info) s) info).
Proof.
  intros (before & c & after & -> & Hc & Hn & Hr) Hs.
  exists before, c, (after ++ [s]). simpl. repeat split.
  - now rewrite <- app_assoc.
  - exact Hc.
  - apply Forall_app. split; [exact Hn|]. now constructor.
  - rewrite inserted_rows_snoc, Hr. reflexivity.
Qed.

Lemma declared_by_snoc_other l s info :
  declared_by l info ->
  creates (tableName info) s = false ->
  rows_into (tableName info) s = 0 ->
  declared_by (l ++ [s]) info.
Proof.
  intros H Hc Hr. rewrite <- (add_rows_0 info), <- Hr.
  now apply declared_by_snoc.
Qed.

Lemma forEach_snoc f l s st :
  forEach f (l ++ [s]) st = (st' <- forEach f l st;; f st' s).
Proof.
  revert st. induction l as [|a r IH]; intros st; simpl.
  - now destruct (f st s).
  - destruct (f st a); simpl; [apply IH|reflexivity].
Qed.

(** ** The invariant of the loop *)

Lemma invariant_initial : invariant [] initial_state.
Proof. repeat split. constructor. Qed.

Lemma invariant_distinct l st :
  invariant l st -> distinct_keys (JsMap.keys (st_tableMap st)).
Proof. intros (-> & _). apply first_occurrences_distinct. Qed.

Lemma invariant_has l st k :
  invariant l st ->
  JsMap.has k (st_tableMap st)
  = existsb (fun y => same_key y k) (created_names l).
Proof.
  intros (Hk & _). now rewrite has_keys, Hk, existsb_first_occurrences.
Qed.

Lemma invariant_step l st s e :
  invariant l st -> effect_of s = Normal e ->
  invariant (l ++ [s]) (apply_effect e st).
Proof.
  intros Hinv He.
  pose proof (invariant_distinct _ _ Hinv) as Hdist.
  pose proof (fun k => invariant_has _ _ k Hinv) as Hhas.
  destruct Hinv as (Hk & Hall & Hdb).
  unfold invariant. rewrite created_names_snoc, last_use_snoc, He.
  assert (Hother : forall kv,
             tableName (snd kv) = fst kv /\ declared_by l (snd kv) ->
             creates (fst kv) s = false -> rows_into (fst kv) s = 0 ->
             tableName (snd kv) = fst kv /\ declared_by (l ++ [s]) (snd kv)).
  { intros kv [Hn Hd] Hc Hr. split; [exact Hn|].
    apply declared_by_snoc_other; rewrite ?Hn; auto. }
  destruct e as [v|n cols|n rows|]; cbn [apply_effect st_databaseName st_tableMap].
  - (* use *)
    rewrite app_nil_r. repeat split; auto.
    eapply Forall_impl; [|exact Hall]. intros kv H.
    apply Hother; auto; unfold creates, rows_into; now rewrite He.
  - (* create *)
    set (info := {| tableName := n; columns := cols; rowCount := 0 |}).
    assert (Hnew : tableName (snd (n, info)) = fst (n, info)
                   /\ declared_by (l ++ [s]) (snd (n, info))).
    { split; [reflexivity|]. exists l, s, []. repeat split; auto. constructor. }
    assert (Hold : forall kv,
               tableName (snd kv) = fst kv /\ declared_by l (snd kv) ->
               same_key (fst kv) n = false ->
               tableName (snd kv) = fst kv /\ declared_by (l ++ [s]) (snd kv)).
    { intros kv H Hne. apply Hother; auto; unfold creates, rows_into; rewrite He;
        [now rewrite same_key_sym|reflexivity]. }
    repeat split; auto.
    + rewrite keys_set, first_occurrences_snoc, Hhas, Hk.
      now destruct (existsb _ _).
    + destruct (JsMap.has n (st_tableMap st)) eqn:Hn.
      * rewrite set_existing by assumption.
        apply Forall_map. eapply Forall_impl; [|exact Hall].
        intros kv H. destruct (same_key (fst kv) n) eqn:E; [|now apply Hold].
        apply same_key_eq in E. rewrite E. exact Hnew.
      * rewrite set_new by assumption. apply Forall_app. split.
        -- rewrite has_keys in Hn.
           apply Forall_forall. intros kv Hin. apply Hold.
           ++ rewrite Forall_forall in Hall. now apply Hall.
           ++ destruct (same_key (fst kv) n) eqn:E; [|reflexivity].
              rewrite <- Hn. symmetry. apply existsb_exists.
              exists (fst kv). split; [|exact E].
              unfold JsMap.keys. now apply in_map.
        -- now constructor.
  - (* insert *)
    rewrite app_nil_r.
    assert (Hmap : st_tableMap
                     match JsMap.get n (st_tableMap st) with
                     | Some info =>
                         {| st_databaseName := st_databaseName st;
                            st_tableMap :=
                              JsMap.set n (add_rows rows info) (st_tableMap st) |}
                     | None => st
                     end
                   = map (fun kv =>
                            if same_key (fst kv) n
                            then (fst kv, add_rows rows (snd kv)) else kv)
                       (st_tableMap st)).
    { rewrite <- set_get_map by assumption.
      now destruct (JsMap.get n (st_tableMap st)). }
    assert (Hdbn : st_databaseName
                     match JsMap.get n (st_tableMap st) with
                     | Some info =>
                         {| st_databaseName := st_databaseName st;
                            st_tableMap :=
                              JsMap.set n (add_rows rows info) (st_tableMap st) |}
                     | None => st
                     end = st_databaseName st).
    { now destruct (JsMap.get n (st_tableMap st)). }
    rewrite Hmap, Hdbn. repeat split; auto.
    + rewrite <- Hk. unfold JsMap.keys. rewrite map_map.
      apply map_ext. intros kv. now destruct (same_key (fst kv) n).
    + apply Forall_map. eapply Forall_impl; [|exact Hall].
      intros kv [Hn Hd].
      assert (Hc : creates (tableName (snd kv)) s = false)
        by (unfold creates; now rewrite He).
      pose proof (declared_by_snoc _ _ _ Hd Hc) as Hd'.
      unfold rows_into in Hd'. rewrite He, Hn in Hd'.
      destruct (same_key (fst kv) n); cbn [fst snd].
      * split; [exact Hn|exact Hd'].
      * split; [exact Hn|]. now rewrite add_rows_0 in Hd'.
  - (* no effect *)
    rewrite app_nil_r. repeat split; auto.
    eapply Forall_impl; [|exact Hall]. intros kv H.
    apply Hother; auto; unfold creates, rows_into; now rewrite He.
Qed.

Lemma forEach_invariant l st :
  forEach process_statement l initial_state = Normal st -> invariant l st.
Proof.
  revert st. induction l as [|s l IH] using rev_ind; intros st H.
  - simpl in H. injection H as <-. apply invariant_initial.
  - rewrite forEach_snoc in H.
    apply bind_normal in H as (st' & H1 & H2).
    rewrite process_statement_effect in H2.
    apply bind_normal in H2 as (e & He & H2). injection H2 as <-.
    eapply invariant_step; eauto.
Qed.

(** ** Column definitions *)

Lemma is_column_definition_eq def :
  is_column_definition def = Normal (retained def).
Proof.
  unfold is_column_definition, retained.
  destruct (truthy def) eqn:E; [|reflexivity].
  now rewrite get_field by exact E.
Qed.

Lemma filterM_retained defs :
  filterM is_column_definition defs = Normal (filter retained defs).
Proof.
  induction defs as [|d r IH]; simpl; [reflexivity|].
  rewrite is_column_definition_eq, IH. simpl. reflexivity.
Qed.

Lemma extractColumns_array defs :
  extractColumns (VArr defs) = mapM column_of_definition (filter retained defs).
Proof. unfold extractColumns. now rewrite filterM_retained. Qed.

Lemma retained_truthy def : retained def = true -> truthy def = true.
Proof. unfold retained. intros H. now apply andb_prop in H. Qed.

Lemma column_of_definition_eq def :
  truthy def = true ->
  column_of_definition def
  = (ty <- buildDataType (field def "definition");;
     Normal {| columnName :=
                 match named_column def with
                 | Some s => s
                 | None => "unknown"%string
                 end;
               dataType := ty |}).
Proof.
  intros H. unfold column_of_definition.
  rewrite extractColumnName_eq, get_field by exact H. reflexivity.
Qed.

Lemma mapM_total {A B} (f : A -> completion B) l :
  Forall (fun x => exists y, f x = Normal y) l ->
  exists r, mapM f l = Normal r.
Proof.
  induction 1 as [|x r [y Hy] _ [r' IH]]; simpl; [eauto|].
  rewrite Hy, IH. simpl. eauto.
Qed.

Lemma extractColumns_total defs :
  no_own_toString defs = true -> exists cols, extractColumns defs = Normal cols.
Proof.
  intros H. destruct defs as [| | | | |l|]; try (simpl; eauto; fail).
  rewrite extractColumns_array. apply mapM_total.
  apply Forall_forall. intros d Hd. apply filter_In in Hd as [Hin Hr].
  rewrite column_of_definition_eq by now apply retained_truthy.
  simpl in H. rewrite forallb_forall in H.
  destruct (buildDataType_total (field d "definition")) as [ty ->].
  { apply no_own_toString_field. now apply H. }
  simpl. eauto.
Qed.

Lemma effect_of_total s :
  no_own_toString s = true -> exists e, effect_of s = Normal e.
Proof.
  intros H. unfold effect_of.
  destruct s as [| | | | | |ps]; eauto.
  split_ifs; eauto.
  - destruct (extractTableName_total (field (VObj ps) "table")) as [name ->].
    cbn [bind]. destruct (truthy name); [|eauto].
    destruct (extractColumns_total (field (VObj ps) "create_definitions"))
      as [cols ->]; [now apply no_own_toString_field|].
    simpl. eauto.
  - destruct (extractTableName_total (field (VObj ps) "table")) as [name ->].
    cbn [bind]. destruct (truthy name); eauto.
Qed.

Lemma forEach_total l st :
  forallb no_own_toString l = true ->
  exists st', forEach process_statement l st = Normal st'.
Proof.
  revert st. induction l as [|s r IH]; intros st H; simpl; [eauto|].
  simpl in H. apply andb_prop in H as [Hs Hr].
  rewrite process_statement_effect.
  destruct (effect_of_total s Hs) as [e ->]. cbn [bind]. now apply IH.
Qed.

Lemma no_own_toString_statements ast :
  no_own_toString ast = true -> forallb no_own_toString (statements_of ast) = true.
Proof.
  destruct ast; simpl; auto; intros H; now rewrite ?H.
Qed.

(** The analysis throws on no tree other than one in which some object
    has an own property [toString]. *)
Lemma analyzeSqlAst_total ast :
  no_own_toString ast = true -> exists r, analyzeSqlAst ast = Normal r.
Proof.
  intros H. unfold analyzeSqlAst.
  destruct (forEach_total (statements_of ast) initial_state) as [st ->].
  - now apply no_own_toString_statements.
  - simpl. eauto.
Qed.

(** What every result satisfies, and when there is none. *)
Lemma analyzeSqlAst_cases ast :
  match analyzeSqlAst ast with
  | Normal r =>
      exists st, invariant (statements_of ast) st /\ r = result_of st
  | Throw _ => no_own_toString ast = false
  end.
Proof.
  destruct (analyzeSqlAst ast) as [r|e] eqn:E.
  - unfold analyzeSqlAst in E. apply bind_normal in E as (st & H1 & H2).
    injection H2 as <-. exists st. split; [|reflexivity].
    now apply forEach_invariant.
  - destruct (no_own_toString ast) eqn:Hn; [|reflexivity].
    destruct (analyzeSqlAst_total ast Hn) as [r Hr]. congruence.
Qed.

Lemma tables_names st l :
  invariant l st ->
  map tableName (tables (result_of st)) = JsMap.keys (st_tableMap st).
Proof.
  intros (_ & Hall & _). simpl. unfold JsMap.values, JsMap.keys.
  rewrite map_map. apply map_ext_in. intros kv Hin.
  rewrite Forall_forall in Hall. now apply Hall.
Qed.

Lemma tables_declared st l info :
  invariant l st -> In info (tables (result_of st)) -> declared_by l info.
Proof.
  intros (_ & Hall & _) Hin. simpl in Hin. unfold JsMap.values in Hin.
  apply in_map_iff in Hin as (kv & <- & Hin).
  rewrite Forall_forall in Hall. now apply Hall.
Qed.

(** * The claims *)

(** C1.  On the tree of [USE shop; CREATE TABLE users(id INT, name
    VARCHAR(50)); INSERT INTO users VALUES (1,'a'),(2,'b'); INSERT INTO users
    VALUES (3,'c');] the analysis returns the database name "shop", one
    table "users" with three rows and the columns id and name; the type of
    id comes out as "INT(3)", the 3 being the number of characters of the
    tag "INT", where "INT" is expected. *)
Theorem shop_scenario :
  analyzeSqlAst shop_ast
  = Normal
      {| databaseName := VStr "shop";
         totalTables := 1;
         tables :=
           [ {| tableName := VStr "users";
                columns :=
                  [ {| columnName := "id"; dataType := "INT(3)" |};
                    {| columnName := "name"; dataType := "VARCHAR(50)" |} ];
                rowCount := 3 |} ] |}.
Proof. vm_compute. reflexivity. Qed.

(** C2.  Every table of the result stems from a create statement of the
    input after which no statement declares the same name again, and its
    rowCount is the sum, over the insert statements after that create that
    target its name, of the number of value tuples (the length of [values]
    when it is a sequence, 1 otherwise).  A name that no statement declares
    has no entry, whatever is inserted into it. *)
Theorem rowCount_counts_later_inserts ast :
  match analyzeSqlAst ast with
  | Normal r =>
      (forall info, In info (tables r) -> declared_by (statements_of ast) info)
      /\ (forall name info,
             no_create name (statements_of ast) -> In info (tables r) ->
             same_key (tableName info) name = false)
  | Throw _ => no_own_toString ast = false
  end.
Proof.
  pose proof (analyzeSqlAst_cases ast) as H.
  destruct (analyzeSqlAst ast) as [r|e]; [|exact H].
  destruct H as (st & Hinv & ->). split.
  - intros info Hin. eapply tables_declared; eauto.
  - intros name info Hno Hin.
    destruct (tables_declared _ _ _ Hinv Hin)
      as (before & s & after & Hl & Hs & _).
    unfold no_create in Hno. rewrite Hl in Hno.
    apply Forall_app in Hno as [_ Hno]. inversion Hno as [|? ? Hc _]; subst.
    unfold creates in Hc. now rewrite Hs in Hc.
Qed.

(** C3.  A top-level input that is neither a sequence nor a statement
    object (null, a bare string, a number, an object without a known
    [type], ...) yields the empty result and no exception. *)
Theorem malformed_input_empty_result ast :
  malformed ast = true -> analyzeSqlAst ast = Normal empty_result.
Proof.
  destruct ast as [| |b|n|s| |ps]; try discriminate; intros H;
    try reflexivity.
  - now destruct b.
  - now destruct n.
  - now destruct s.
  - unfold analyzeSqlAst. cbn [statements_of forEach].
    rewrite process_statement_effect. unfold effect_of.
    cbn [malformed] in H. apply negb_true_iff in H.
    apply orb_false_iff in H as [H H3]. apply orb_false_iff in H as [H1 H2].
    now rewrite H1, H2, H3.
Qed.

Lemma malformed_input_witness :
  (malformed VNull = true /\ analyzeSqlAst VNull = Normal empty_result)
  /\ (malformed (VStr "garbage") = true
      /\ analyzeSqlAst (VStr "garbage") = Normal empty_result)
  /\ (malformed (obj [("kind", VStr "use")]) = true
      /\ analyzeSqlAst (obj [("kind", VStr "use")]) = Normal empty_result).
Proof.
  split; [|split]; (split; [reflexivity|]).
  - apply (malformed_input_empty_result VNull). reflexivity.
  - apply (malformed_input_empty_result (VStr "garbage")). reflexivity.
  - apply (malformed_input_empty_result (obj [("kind", VStr "use")])).
    reflexivity.
Defined.

(** C5.  The type string is the upper-cased tag followed by the suffix
    for length and scale: VARCHAR with length 50 gives "VARCHAR(50)",
    DECIMAL with length 10 and scale 2 gives "DECIMAL(10,2)".  For a tag
    given as a string and no length, the fallback that looks for a length
    under [dataType] reads the [length] of the tag itself: INT alone gives
    "INT(3)" and DECIMAL with a scale only gives "DECIMAL(7,2)".  With the
    tag nested under [dataType] the results are "INT" and "DECIMAL". *)
Theorem type_composition_examples :
  buildDataType (obj [("dataType", VStr "VARCHAR"); ("length", VNum 50)])
  = Normal "VARCHAR(50)"%string
  /\ buildDataType
       (obj [("dataType", VStr "DECIMAL"); ("length", VNum 10);
             ("scale", VNum 2)])
     = Normal "DECIMAL(10,2)"%string
  /\ buildDataType (obj [("dataType", VStr "INT")]) = Normal "INT(3)"%string
  /\ buildDataType (obj [("dataType", VStr "DECIMAL"); ("scale", VNum 2)])
     = Normal "DECIMAL(7,2)"%string
  /\ buildDataType (obj [("dataType", obj [("dataType", VStr "INT")])])
     = Normal "INT"%string
  /\ buildDataType
       (obj [("dataType", obj [("dataType", VStr "DECIMAL")]);
             ("scale", VNum 2)])
     = Normal "DECIMAL"%string.
Proof. repeat split; vm_compute; reflexivity. Qed.

(** The defect behind C1 and C5 in general: a type given by its tag alone
    gets the number of characters of the tag as its length. *)
Lemma bare_tag_length_suffix tag :
  tag <> ""%string ->
  buildDataType (obj [("dataType", VStr tag)])
  = Normal
      (toUpperCase tag ++ "("
       ++ NilZero.string_of_int (Z.to_int (Z.of_nat (String.length tag)))
       ++ ")")%string.
Proof.
  intros H. rewrite buildDataType_eq by reflexivity.
  unfold base_type, type_tag, found, obj.
  change (field (VObj [("dataType", VStr tag)]) "dataType") with (VStr tag).
  change (field (VObj [("dataType", VStr tag)]) "length") with VUndefined.
  change (field (VObj [("dataType", VStr tag)]) "scale") with VUndefined.
  apply truthy_string in H. rewrite H. reflexivity.
Qed.

(** C9.  The result has at most one table per name, the tables come in
    the order in which their names were first declared, and totalTables is
    the length of tables. *)
Theorem tables_unique_and_ordered ast :
  match analyzeSqlAst ast with
  | Normal r =>
      distinct_keys (map tableName (tables r))
      /\ map tableName (tables r)
         = first_occurrences (created_names (statements_of ast))
      /\ totalTables r = Z.of_nat (List.length (tables r))
  | Throw _ => no_own_toString ast = false
  end.
Proof.
  pose proof (analyzeSqlAst_cases ast) as H.
  destruct (analyzeSqlAst ast) as [r|e]; [|exact H].
  destruct H as (st & Hinv & ->).
  rewrite (tables_names _ _ Hinv).
  repeat split.
  - eapply invariant_distinct; eauto.
  - now destruct Hinv.
Qed.

Lemma In_first_occurrences n l : In n l -> In n (first_occurrences l).
Proof.
  induction l as [|x r IH]; simpl; [auto|].
  intros [->|H]; [now left|].
  destruct (same_key x n) eqn:E.
  - left. now apply same_key_eq.
  - right. apply filter_In. split; [auto|]. now rewrite E.
Qed.

Lemma In_created_names l s n cols :
  In s l -> effect_of s = Normal (Create n cols) -> In n (created_names l).
Proof.
  intros Hin He. unfold created_names. apply in_flat_map.
  exists s. split; [exact Hin|]. rewrite He. now left.
Qed.

Lemma last_create_unique n b1 s1 a1 b2 s2 a2 :
  b1 ++ s1 :: a1 = b2 ++ s2 :: a2 ->
  creates n s1 = true -> creates n s2 = true ->
  no_create n a1 -> no_create n a2 ->
  b1 = b2 /\ s1 = s2 /\ a1 = a2.
Proof.
  intros Heq H1 H2 N1 N2. revert b2 Heq.
  induction b1 as [|x b1 IH]; intros [|y b2] Heq; simpl in Heq.
  - injection Heq as -> ->. auto.
  - injection Heq as -> ->. exfalso.
    unfold no_create in N1. apply Forall_app in N1 as [_ N1].
    inversion N1; subst. congruence.
  - injection Heq as -> <-. exfalso.
    unfold no_create in N2. apply Forall_app in N2 as [_ N2].
    inversion N2; subst. congruence.
  - injection Heq as -> Heq. destruct (IH _ Heq) as (-> & -> & ->). auto.
Qed.

Lemma distinct_keys_entry {V} (m : JsMap.t V) kv1 kv2 :
  distinct_keys (JsMap.keys m) -> In kv1 m -> In kv2 m ->
  same_key (fst kv1) (fst kv2) = true -> kv1 = kv2.
Proof.
  induction m as [|kv r IH]; simpl; [tauto|].
  intros Hd H1 H2 Hs. apply distinct_keys_cons in Hd as [Hk Hd].
  rewrite Forall_forall in Hk.
  destruct H1 as [->|H1], H2 as [->|H2]; auto.
  - exfalso. rewrite (Hk (fst kv2)) in Hs; [discriminate|].
    unfold JsMap.keys. now apply in_map.
  - exfalso. rewrite same_key_sym, (Hk (fst kv1)) in Hs; [discriminate|].
    unfold JsMap.keys. now apply in_map.
Qed.

(** C4.  When two create statements declare the same name and the later
    one is the last declaration of that name, the entry of the name has the
    columns of the later statement and counts the rows inserted after it
    only; it is the one entry of that name. *)
Theorem redeclaration_resets l1 c1 l2 c2 l3 n1 cols1 n2 cols2 :
  effect_of c1 = Normal (Create n1 cols1) ->
  effect_of c2 = Normal (Create n2 cols2) ->
  same_key n1 n2 = true ->
  no_create n2 l3 ->
  match analyzeSqlAst (VArr (l1 ++ c1 :: l2 ++ c2 :: l3)) with
  | Normal r =>
      exists info,
        In info (tables r) /\ tableName info = n2 /\ columns info = cols2 /\
        rowCount info = inserted_rows n2 l3 /\
        (forall info',
            In info' (tables r) -> same_key (tableName info') n2 = true ->
            info' = info)
  | Throw _ => no_own_toString (VArr (l1 ++ c1 :: l2 ++ c2 :: l3)) = false
  end.
Proof.
  intros H1 H2 Hsame Hno.
  pose proof (analyzeSqlAst_cases (VArr (l1 ++ c1 :: l2 ++ c2 :: l3))) as H.
  destruct (analyzeSqlAst _) as [r|e]; [|exact H].
  destruct H as (st & Hinv & ->). cbn [statements_of] in Hinv.
  apply same_key_eq in Hsame as Heq. subst n1.
  set (l := l1 ++ c1 :: l2 ++ c2 :: l3) in *.
  assert (Hl : l = (l1 ++ c1 :: l2) ++ c2 :: l3).
  { unfold l. now rewrite <- app_assoc. }
  assert (Hin : In n2 (JsMap.keys (st_tableMap st))).
  { destruct Hinv as (-> & _). apply In_first_occurrences.
    apply (In_created_names l c2 n2 cols2); [|exact H2].
    rewrite Hl. apply in_elt. }
  unfold JsMap.keys in Hin. apply in_map_iff in Hin as ([k info] & Hk & Hin).
  simpl in Hk. subst k.
  pose proof Hinv as (_ & Hall & _). rewrite Forall_forall in Hall.
  destruct (Hall _ Hin) as (Hname & before & s & after & Hsplit & Hs & Hn & Hr).
  simpl in Hname, Hsplit, Hs, Hn, Hr. rewrite Hname in *.
  destruct (last_create_unique n2 _ _ _ _ _ _ (eq_trans (eq_sym Hl) Hsplit))
    as (Eb & Es & Ea); auto.
  { unfold creates. now rewrite H2. }
  { unfold creates. now rewrite Hs. }
  subst before s after.
  exists info. repeat split; auto.
  - simpl. unfold JsMap.values. now apply (in_map snd) in Hin.
  - rewrite H2 in Hs. now injection Hs.
  - intros info' Hin' Hs'. simpl in Hin'. unfold JsMap.values in Hin'.
    apply in_map_iff in Hin' as ([k' i'] & Hi & Hin'). simpl in Hi. subst i'.
    destruct (Hall _ Hin') as (Hname' & _). simpl in Hname'.
    assert (E : (k', info') = (n2, info)).
    { eapply distinct_keys_entry; eauto.
      - eapply invariant_distinct; eauto.
      - simpl. now rewrite <- Hname'. }
    now injection E.
Qed.

Lemma redeclaration_resets_witness :
  match
    analyzeSqlAst
      (VArr ([] ++ first_users :: [two_rows] ++ second_users :: [one_row]))
  with
  | Normal r =>
      exists info,
        In info (tables r) /\ tableName info = VStr "users" /\
        columns info
        = [ {| columnName := "name"; dataType := "VARCHAR(50)" |} ] /\
        rowCount info = inserted_rows (VStr "users") [one_row] /\
        (forall info',
            In info' (tables r) ->
            same_key (tableName info') (VStr "users") = true -> info' = info)
  | Throw _ =>
      no_own_toString
        (VArr ([] ++ first_users :: [two_rows] ++ second_users :: [one_row]))
      = false
  end.
Proof.
  apply (redeclaration_resets [] first_users [two_rows] second_users [one_row]
           (VStr "users") [ {| columnName := "id"; dataType := "INT(3)" |} ]
           (VStr "users")
           [ {| columnName := "name"; dataType := "VARCHAR(50)" |} ]).
  - vm_compute. reflexivity.
  - vm_compute. reflexivity.
  - reflexivity.
  - repeat constructor.
Defined.

Lemma In_values_set {V} k (v : V) m : In v (JsMap.values (JsMap.set k v m)).
Proof.
  induction m as [|[k' v'] r IH]; simpl; [now left|].
  destruct (same_key k' k); simpl; [now left|now right].
Qed.

Lemma get_string_object s k w :
  get s k = Normal (VStr w) -> k <> "length"%string ->
  exists ps, s = VObj ps.
Proof.
  destruct s; simpl; try discriminate; intros H Hk.
  - destruct (String.eqb_spec k "length"); [contradiction|discriminate].
  - destruct (String.eqb_spec k "length"); [contradiction|discriminate].
  - eauto.
Qed.

Lemma forEach_throw_no_own l st e :
  forEach process_statement l st = Throw e ->
  no_own_toString (VArr l) = false.
Proof.
  intros H. simpl. destruct (forallb no_own_toString l) eqn:E; [|reflexivity].
  destruct (forEach_total l st E) as [st' H']. congruence.
Qed.

(** C10.  A create statement with keyword "table" and a name that
    extracts, whose definition list is not a sequence, still declares its
    table, with no columns and no rows; and an entry of a definition list
    that is not flagged as a column is dropped, the entries around it being
    read as without it. *)
Theorem create_without_definitions s tbl name defs l before d after :
  get s "type" = Normal (VStr "create") ->
  get s "keyword" = Normal (VStr "table") ->
  get s "table" = Normal tbl -> truthy tbl = true ->
  extractTableName tbl = Normal name -> truthy name = true ->
  get s "create_definitions" = Normal defs -> isArray defs = false ->
  is_column_definition d = Normal false ->
  match analyzeSqlAst (VArr (l ++ [s])) with
  | Normal r =>
      In {| tableName := name; columns := []; rowCount := 0 |} (tables r)
  | Throw _ => no_own_toString (VArr l) = false
  end
  /\ extractColumns (VArr (before ++ d :: after))
     = extractColumns (VArr (before ++ after)).
Proof.
  intros Hty Hkw Htbl Htt Hname Htn Hdefs Harr Hd. split.
  - destruct (get_string_object _ _ _ Hty) as [ps ->]; [discriminate|].
    assert (He : effect_of (VObj ps) = Normal (Create name [])).
    { unfold effect_of, field. rewrite Hty, Hkw, Htbl, Hdefs. cbn [strict_eq].
      cbn [String.eqb Ascii.eqb Bool.eqb andb]. rewrite Htt, Hname.
      cbn [bind]. rewrite Htn.
      destruct defs; try discriminate; reflexivity. }
    unfold analyzeSqlAst. cbn [statements_of]. rewrite forEach_snoc.
    destruct (forEach process_statement l initial_state) as [st|e] eqn:E.
    + cbn [bind]. rewrite process_statement_effect, He. cbn [bind apply_effect].
      simpl tables. apply In_values_set.
    + cbn [bind]. eapply forEach_throw_no_own; eauto.
  - rewrite !extractColumns_array, !filter_app. simpl.
    rewrite is_column_definition_eq in Hd. injection Hd as ->. reflexivity.
Qed.

Lemma create_without_definitions_witness :
  match analyzeSqlAst (VArr ([use_statement (VStr "shop")] ++ [bare_create])) with
  | Normal r =>
      In {| tableName := VStr "logs"; columns := []; rowCount := 0 |} (tables r)
  | Throw _ => no_own_toString (VArr [use_statement (VStr "shop")]) = false
  end
  /\ extractColumns
       (VArr ([column_definition "id" (obj [("dataType", VStr "INT")])]
              ++ primary_key_constraint
              :: [column_definition "n" (obj [("dataType", VStr "TEXT")])]))
     = extractColumns
         (VArr ([column_definition "id" (obj [("dataType", VStr "INT")])]
                ++ [column_definition "n" (obj [("dataType", VStr "TEXT")])])).
Proof.
  apply (create_without_definitions bare_create (table_list "logs")
           (VStr "logs") VUndefined).
  all: vm_compute; reflexivity.
Defined.

(** C7 as stated fails.  A use statement whose [db] field holds a nested
    [db] that is a number makes databaseName that number, not a string; and
    a use statement without a [db] field, coming last, does not overwrite
    the name an earlier one has set. *)
Lemma databaseName_counterexample :
  (exists r,
      analyzeSqlAst
        (VArr [ use_statement (VStr "a");
                use_statement (obj [("db", VNum 7)]) ])
      = Normal r
      /\ forall s, databaseName r <> VStr s)
  /\ analyzeSqlAst
       (VArr [ use_statement (VStr "a"); obj [("type", VStr "use")] ])
     = Normal {| databaseName := VStr "a"; totalTables := 0; tables := [] |}.
Proof.
  split; [|vm_compute; reflexivity].
  eexists. split; [vm_compute; reflexivity|]. simpl. discriminate.
Qed.

Lemma effect_of_use ps :
  field (VObj ps) "type" = VStr "use" ->
  effect_of (VObj ps)
  = Normal (if truthy (field (VObj ps) "db")
            then Use (use_target (field (VObj ps) "db"))
            else Skip).
Proof.
  intros H. unfold effect_of. rewrite H. cbn [strict_eq].
  cbn [String.eqb Ascii.eqb Bool.eqb].
  now destruct (truthy (field (VObj ps) "db")).
Qed.

Lemma use_target_cases db :
  (forall s, db = VStr s -> use_target db = VStr s)
  /\ (is_string db = false ->
      truthy (field db "db") = true -> use_target db = field db "db")
  /\ (is_string db = false ->
      forall s, field db "db" = VStr s -> s <> ""%string ->
                use_target db = VStr s)
  /\ (is_string db = false ->
      truthy (field db "db") = false ->
      use_target db = db /\ is_string (use_target db) = false).
Proof.
  repeat split.
  - now intros s ->.
  - intros Hs Ht. unfold use_target. destruct db; try discriminate Hs;
      now rewrite Ht.
  - intros Hs s Hf Hne. apply truthy_string in Hne. rewrite <- Hf in Hne.
    unfold use_target. destruct db; try discriminate Hs; now rewrite Hne.
  - unfold use_target. destruct db; try discriminate H; now rewrite H0.
  - unfold use_target. destruct db; try discriminate H; now rewrite H0.
Qed.

(** C7, amended.  databaseName is the target of the last use statement
    whose [db] field is truthy, and null when there is none: a use
    statement with a falsy [db] field overwrites nothing.  The target is the
    [db] field itself when that is a string; otherwise the [db] field nested
    under it when that is truthy, a string when the nested field is a
    non-empty string; otherwise the [db] field as it is, which is then not a
    string.  For [use a; use b] databaseName is "b". *)
Theorem databaseName_last_use ast :
  match analyzeSqlAst ast with
  | Normal r =>
      databaseName r
      = match last_use (statements_of ast) with
        | Some v => v
        | None => VNull
        end
  | Throw _ => no_own_toString ast = false
  end
  /\ (forall l ps,
         field (VObj ps) "type" = VStr "use" ->
         last_use (l ++ [VObj ps])
         = if truthy (field (VObj ps) "db")
           then Some (use_target (field (VObj ps) "db"))
           else last_use l)
  /\ (forall db,
         (forall s, db = VStr s -> use_target db = VStr s)
         /\ (is_string db = false ->
             truthy (field db "db") = true -> use_target db = field db "db")
         /\ (is_string db = false ->
             forall s, field db "db" = VStr s -> s <> ""%string ->
                       use_target db = VStr s)
         /\ (is_string db = false ->
             truthy (field db "db") = false ->
             use_target db = db /\ is_string (use_target db) = false))
  /\ analyzeSqlAst (VArr [use_statement (VStr "a"); use_statement (VStr "b")])
     = Normal {| databaseName := VStr "b"; totalTables := 0; tables := [] |}.
Proof.
  split; [|split; [|split]].
  - pose proof (analyzeSqlAst_cases ast) as H.
    destruct (analyzeSqlAst ast) as [r|e]; [|exact H].
    destruct H as (st & Hinv & ->). simpl. now destruct Hinv as (_ & _ & ->).
  - intros l ps H. rewrite last_use_snoc, effect_of_use by exact H.
    now destruct (truthy (field (VObj ps) "db")).
  - apply use_target_cases.
  - vm_compute. reflexivity.
Qed.

(** C6 as stated fails.  A reference whose [table] field is an object
    with a numeric [table] field matches none of the shapes (a) to (d), yet
    the extractor returns the number, and a create statement makes it the
    name of a table.  A sequence whose first element is a string matches
    none of them either, and the string is returned.  An empty string under
    [table] matches (d), and (c) inside a sequence, and no name is
    returned. *)
Lemma table_name_counterexample :
  ((forall s, ~ documented_shape numbered_table s)
   /\ extractTableName numbered_table = Normal (VNum 42)
   /\ analyzeSqlAst (VArr [create_table numbered_table VNull])
      = Normal
          {| databaseName := VNull;
             totalTables := 1;
             tables :=
               [ {| tableName := VNum 42; columns := []; rowCount := 0 |} ] |})
  /\ ((forall s, ~ documented_shape (VArr [VStr "users"]) s)
      /\ extractTableName (VArr [VStr "users"]) = Normal (VStr "users"))
  /\ (documented_shape (obj [("table", obj [("table", VStr "")])]) ""
      /\ extractTableName (obj [("table", obj [("table", VStr "")])])
         = Normal VNull)
  /\ (documented_shape (VArr [obj [("table", VStr "")]]) ""
      /\ extractTableName (VArr [obj [("table", VStr "")]]) = Normal VNull).
Proof.
  repeat split; try (vm_compute; reflexivity).
  - intros s H. unfold numbered_table, obj in H.
    inversion H as [| |v s' Ho]; subst.
    inversion Ho as [ps s' Hf|ps ps' s' Hf Hf']; subst.
    + vm_compute in Hf. discriminate.
    + vm_compute in Hf. injection Hf as <-. vm_compute in Hf'. discriminate.
  - intros s H. inversion H as [|first rest s' Ho|v s' Ho]; subst;
      inversion Ho.
  - apply documented_cd. eapply documented_d; reflexivity.
  - apply documented_b. apply documented_c. reflexivity.
Qed.

Lemma extractTableName_table_shape v s :
  extractTableName v = Normal (VStr s) <-> table_shape v s.
Proof.
  split; [apply extractTableName_shape|apply shape_extractTableName].
Qed.

Lemma table_shape_reference_shape v s :
  s <> ""%string -> table_shape v s <-> reference_shape v s.
Proof.
  intros Hs. unfold reference_shape. split.
  - intros H.
    destruct H as [s|s rest|fps rest s Ht _|fps tps rest s Ht Htt
                  |ps s Ht|ps tps s Ht Htt _].
    + left. constructor.
    + right. eauto.
    + left. apply documented_b. now apply documented_c.
    + left. apply documented_b. now apply documented_d with tps.
    + left. apply documented_cd. now apply documented_c.
    + left. apply documented_cd. now apply documented_d with tps.
  - intros [H|[rest ->]]; [|constructor].
    destruct H as [s|first rest s Ho|v s Ho].
    + constructor.
    + destruct Ho as [ps s Ht|ps tps s Ht Htt].
      * now apply shape_first_table.
      * now apply shape_first_nested with tps.
    + destruct Ho as [ps s Ht|ps tps s Ht Htt].
      * now apply shape_table.
      * now apply shape_nested with tps.
Qed.

Lemma extractTableName_null v :
  (forall s, ~ reference_shape v s) ->
  truthy (table_holder v) && negb (is_string (table_holder v)) = false ->
  extractTableName v = Normal VNull.
Proof.
  intros Hno Hh. unfold extractTableName. rewrite typeof_string.
  destruct v as [| |b|n|s0|[|first rest]|ps]; cbn [is_string].
  - reflexivity.
  - reflexivity.
  - cbn. now destruct b.
  - cbn. now destruct (negb (n =? 0)).
  - exfalso. apply (Hno s0). left. constructor.
  - reflexivity.
  - unfold table_holder in Hh. rewrite typeof_string.
    destruct (is_string first) eqn:Hs.
    { apply is_string_inv in Hs as [s1 ->]. exfalso. apply (Hno s1).
      right. eauto. }
    destruct (truthy first) eqn:Hf; [|reflexivity].
    rewrite (get_field first) by exact Hf. cbn [bind].
    destruct (truthy (field first "table")) eqn:Ht; [|reflexivity].
    cbn [andb] in Hh. apply negb_false_iff in Hh.
    apply is_string_inv in Hh as [s1 Hs1].
    destruct (field_string_object _ _ Hs1) as [fps ->].
    exfalso. apply (Hno s1). left. apply documented_b. now apply documented_c.
  - unfold table_holder in Hh.
    cbn [truthy typeof andb String.eqb Ascii.eqb Bool.eqb].
    rewrite get_object. cbn [bind]. rewrite typeof_string.
    destruct (is_string (field (VObj ps) "table")) eqn:Hts.
    + apply is_string_inv in Hts as [s1 Hs1]. exfalso. apply (Hno s1).
      left. apply documented_cd. now apply documented_c.
    + cbn [negb] in Hh. rewrite andb_true_r in Hh. now rewrite Hh.
Qed.

Lemma extractTableName_falsy v :
  (forall s, ~ reference_shape v s) ->
  truthy (field (table_holder v) "table")
  && negb (is_string (field (table_holder v) "table")) = false ->
  exists w, extractTableName v = Normal w /\ truthy w = false.
Proof.
  intros Hno Hn.
  destruct (truthy (table_holder v) && negb (is_string (table_holder v)))
    eqn:Hh.
  2:{ exists VNull. split; [now apply extractTableName_null|reflexivity]. }
  apply andb_prop in Hh as [Ht Hs]. apply negb_true_iff in Hs.
  assert (Hnested : truthy (field (table_holder v) "table") = false).
  { destruct (truthy (field (table_holder v) "table")) eqn:E; [|reflexivity].
    cbn [andb] in Hn. apply negb_false_iff in Hn.
    apply is_string_inv in Hn as [s1 Hs1].
    destruct (field_string_object _ _ Hs1) as [tps Htps].
    exfalso. apply (Hno s1). left. unfold table_holder in Htps.
    destruct v as [| |b|n|s0|[|first rest]|ps]; try discriminate Htps.
    - destruct (field_object_object _ _ Htps) as [fps ->].
      apply documented_b. apply documented_d with tps; [exact Htps|].
      unfold table_holder in Hs1. now rewrite Htps in Hs1.
    - apply documented_cd. apply documented_d with tps; [exact Htps|].
      unfold table_holder in Hs1. now rewrite Htps in Hs1. }
  unfold table_holder in *. unfold extractTableName. rewrite typeof_string.
  destruct v as [| |b|n|s0|[|first rest]|ps]; try discriminate Ht;
    cbn [is_string].
  - rewrite typeof_string.
    destruct (is_string first) eqn:Hf.
    { apply is_string_inv in Hf as [s1 ->]. discriminate Ht. }
    assert (Htf : truthy first = true) by (destruct first; try discriminate Ht;
                                           reflexivity).
    rewrite Htf, (get_field first) by exact Htf. cbn [bind].
    rewrite Ht, typeof_string, Hs, get_field by exact Ht. eauto.
  - cbn [truthy typeof andb String.eqb Ascii.eqb Bool.eqb].
    rewrite get_object. cbn [bind]. rewrite typeof_string, Hs, guarded_get, Ht.
    rewrite Hnested. exists VNull. auto.
Qed.

(** C6, amended.  For a non-empty string [s], the extractor returns [s]
    exactly when the reference is (a) the string [s] itself; (b) a
    non-empty sequence whose first element is the string [s] or matches (c)
    or (d); (c) an object whose [table] field is the string [s]; (d) an
    object whose [table] field is an object with the string [s] as [table]
    field.  When the reference matches none of these shapes for any string,
    the extractor returns no name: a falsy value, which the analyzer does
    not use as a table name, and null itself unless the [table] field (of
    the object, or of the first element of the sequence) is a truthy value
    that is not a string.  Left aside is the case where the [table] field
    nested under that [table] field is a truthy value that is not a
    string. *)
Theorem extractTableName_shapes v :
  (forall s,
      s <> ""%string ->
      extractTableName v = Normal (VStr s) <-> reference_shape v s)
  /\ ((forall s, ~ reference_shape v s) ->
      truthy (field (table_holder v) "table")
      && negb (is_string (field (table_holder v) "table")) = false ->
      (exists w, extractTableName v = Normal w /\ truthy w = false)
      /\ (truthy (table_holder v) && negb (is_string (table_holder v)) = false ->
          extractTableName v = Normal VNull)).
Proof.
  split.
  - intros s Hs.
    rewrite extractTableName_table_shape. now apply table_shape_reference_shape.
  - intros Hno Hn. split.
    + now apply extractTableName_falsy.
    + now apply extractTableName_null.
Qed.

(** C8 as stated fails.  A retained column definition whose declared
    type has a length and no type tag gets the type "unknown(5)", not
    "unknown".  And a definition without type tag can make the analysis
    throw, the statements after it being left unread: a length that is an
    object with an own property [toString] cannot be converted to a
    string. *)
Lemma unknown_type_counterexample :
  (retained untyped_column = true
   /\ type_tag (field untyped_column "definition") = None
   /\ extractColumns (VArr [untyped_column])
      = Normal [ {| columnName := "c"; dataType := "unknown(5)" |} ])
  /\ (retained unprintable_column = true
      /\ type_tag (field unprintable_column "definition") = None
      /\ analyzeSqlAst
           (VArr [ create_table (table_list "t") (VArr [unprintable_column]);
                   use_statement (VStr "shop") ])
         = Throw TypeError).
Proof. repeat split. Qed.

(** C8, amended.  For a retained column definition, name extraction
    returns, and returns "unknown" when no string is found under [column]
    at depth one, two or three.  When no type tag is found, the type string
    is the base "unknown" with the suffix of the composition rule for the
    length and scale found: "unknown(length,scale)", "unknown(length)", or
    "unknown" itself when no length is found or the definition is falsy;
    building it returns when no object of the definition has an own
    property [toString]. *)
Theorem unknown_fallbacks def :
  retained def = true ->
  (exists name,
      extractColumnName def = Normal name
      /\ (named_column def = None -> name = "unknown"%string))
  /\ (type_tag (field def "definition") = None ->
      buildDataType (field def "definition")
      = (if truthy (field def "definition")
         then with_suffix "unknown"
                (found (field def "definition") "length")
                (found (field def "definition") "scale")
         else Normal "unknown"%string)
      /\ (found (field def "definition") "length" = None ->
          buildDataType (field def "definition") = Normal "unknown"%string)
      /\ (no_own_toString def = true ->
          exists ty, buildDataType (field def "definition") = Normal ty)).
Proof.
  intros Hr. apply retained_truthy in Hr as Ht. split.
  - rewrite extractColumnName_eq by exact Ht. eexists. split; [reflexivity|].
    now intros ->.
  - intros Htag. set (d := field def "definition") in *.
    assert (Heq : buildDataType d
                  = (if truthy d
                     then with_suffix "unknown" (found d "length")
                            (found d "scale")
                     else Normal "unknown"%string)).
    { destruct (truthy d) eqn:Hd.
      - rewrite buildDataType_eq by exact Hd. unfold base_type.
        now rewrite Htag.
      - unfold buildDataType. now rewrite Hd. }
    split; [exact Heq|]. split.
    + intros Hl. rewrite Heq, Hl. now destruct (truthy d).
    + intros Hn. apply buildDataType_total.
      now apply no_own_toString_field.
Qed.

Lemma unknown_fallbacks_witness :
  retained untyped_column = true
  /\ type_tag (field untyped_column "definition") = None
  /\ buildDataType (field untyped_column "definition")
     = Normal "unknown(5)"%string.
Proof.
  split; [reflexivity|]. split; [reflexivity|].
  destruct (unknown_fallbacks untyped_column eq_refl) as [_ H].
  destruct (H eq_refl) as [-> _]. reflexivity.
Defined.

(** * Further properties of the analyzer *)

(** ** Statements that change nothing *)

Lemma forEach_app f l1 l2 st :
  forEach f (l1 ++ l2) st = (st' <- forEach f l1 st;; forEach f l2 st').
Proof.
  revert st. induction l1 as [|a r IH]; intros st; simpl.
  - now destruct (forEach f l2 st).
  - destruct (f st a); simpl; [apply IH|reflexivity].
Qed.

Lemma skipped_effect s : skipped s = true -> effect_of s = Normal Skip.
Proof.
  unfold skipped, effect_of. destruct s as [| | | | | |ps]; try reflexivity.
  cbv zeta.
  destruct (strict_eq (field (VObj ps) "type") (VStr "use")).
  { intros H. apply negb_true_iff in H. now rewrite H. }
  destruct (strict_eq (field (VObj ps) "type") (VStr "create")).
  { intros H. apply negb_true_iff in H. now rewrite H. }
  destruct (strict_eq (field (VObj ps) "type") (VStr "insert")); [|reflexivity].
  intros H. apply negb_true_iff in H. now rewrite H.
Qed.

Lemma remove_unchanging_statement l1 s l2 :
  (forall st, invariant l1 st -> process_statement st s = Normal st) ->
  analyzeSqlAst (VArr (l1 ++ s :: l2)) = analyzeSqlAst (VArr (l1 ++ l2)).
Proof.
  intros H. unfold analyzeSqlAst. cbn [statements_of].
  rewrite !forEach_app.
  destruct (forEach process_statement l1 initial_state) as [st|e] eqn:E;
    [|reflexivity].
  cbn [bind forEach]. rewrite H; [reflexivity|].
  now apply forEach_invariant.
Qed.

(** X1.  A statement without effect (no object, another [type], a use
    without [db], a create that is not a create table or has no [table], an
    insert without [table]) can be taken out of the sequence, wherever it
    stands: the analysis returns the same result, or throws as before. *)
Theorem skipped_statement_removable l1 s l2 :
  skipped s = true ->
  analyzeSqlAst (VArr (l1 ++ s :: l2)) = analyzeSqlAst (VArr (l1 ++ l2)).
Proof.
  intros H. apply remove_unchanging_statement. intros st _.
  rewrite process_statement_effect, (skipped_effect s H). reflexivity.
Qed.

Lemma skipped_statement_removable_witness :
  skipped (create_database "shop") = true
  /\ analyzeSqlAst
       (VArr ([use_statement (VStr "shop")]
              ++ create_database "shop" :: [first_users; two_rows]))
     = analyzeSqlAst
         (VArr ([use_statement (VStr "shop")] ++ [first_users; two_rows])).
Proof.
  split; [reflexivity|].
  apply (skipped_statement_removable [use_statement (VStr "shop")]
           (create_database "shop") [first_users; two_rows]).
  reflexivity.
Defined.

Lemma no_create_created_names name l :
  no_create name l ->
  existsb (fun y => same_key y name) (created_names l) = false.
Proof.
  unfold no_create, created_names. induction 1 as [|s r Hs _ IH]; [reflexivity|].
  simpl. rewrite existsb_app, IH, orb_false_r.
  unfold creates in Hs. destruct (effect_of s) as [[]|]; try reflexivity.
  simpl. now rewrite Hs.
Qed.

Lemma effect_of_insert_shape s tbl name :
  get s "type" = Normal (VStr "insert") ->
  get s "table" = Normal tbl ->
  extractTableName tbl = Normal name ->
  effect_of s = Normal Skip
  \/ exists rows, effect_of s = Normal (Insert name rows).
Proof.
  intros Hty Htbl Hname.
  destruct (get_string_object _ _ _ Hty) as [ps ->]; [discriminate|].
  unfold effect_of, field. rewrite Hty, Htbl.
  cbn [strict_eq String.eqb Ascii.eqb Bool.eqb].
  destruct (truthy tbl); [|now left].
  rewrite Hname. cbn [bind]. destruct (truthy name); [right; eauto|now left].
Qed.

(** X2.  An insert statement whose table no earlier statement has
    declared changes nothing: the analysis is the one of the sequence
    without it. *)
Theorem insert_before_create_removable l1 s l2 tbl name :
  get s "type" = Normal (VStr "insert") ->
  get s "table" = Normal tbl ->
  extractTableName tbl = Normal name ->
  no_create name l1 ->
  analyzeSqlAst (VArr (l1 ++ s :: l2)) = analyzeSqlAst (VArr (l1 ++ l2)).
Proof.
  intros Hty Htbl Hname Hno. apply remove_unchanging_statement.
  intros st Hinv. rewrite process_statement_effect.
  destruct (effect_of_insert_shape _ _ _ Hty Htbl Hname) as [->|[rows ->]];
    [reflexivity|].
  cbn [bind apply_effect].
  rewrite has_get_none; [reflexivity|].
  rewrite (invariant_has _ _ _ Hinv). now apply no_create_created_names.
Qed.

Lemma insert_before_create_removable_witness :
  analyzeSqlAst
    (VArr ([use_statement (VStr "shop")] ++ two_rows :: [first_users; one_row]))
  = analyzeSqlAst
      (VArr ([use_statement (VStr "shop")] ++ [first_users; one_row])).
Proof.
  apply (insert_before_create_removable [use_statement (VStr "shop")] two_rows
           [first_users; one_row] (table_list "users") (VStr "users")).
  - reflexivity.
  - reflexivity.
  - reflexivity.
  - repeat constructor.
Defined.

(** ** What every result looks like *)

Lemma effect_of_create_truthy s name cols :
  effect_of s = Normal (Create name cols) -> truthy name = true.
Proof.
  unfold effect_of. destruct s as [| | | | | |ps]; try discriminate.
  cbv zeta.
  destruct (strict_eq (field (VObj ps) "type") (VStr "use")).
  { destruct (truthy _); discriminate. }
  destruct (strict_eq (field (VObj ps) "type") (VStr "create")).
  - destruct (_ && _); [|discriminate].
    destruct (extractTableName_total (field (VObj ps) "table")) as [n ->].
    cbn [bind]. destruct (truthy n) eqn:E; [|discriminate].
    destruct (extractColumns _); [|discriminate].
    cbn [bind]. now intros [= <- _].
  - destruct (strict_eq _ _); [|discriminate].
    destruct (truthy _); [|discriminate].
    destruct (extractTableName_total (field (VObj ps) "table")) as [n ->].
    cbn [bind]. destruct (truthy n); discriminate.
Qed.

Lemma value_tuples_nonneg vals : 0 <= value_tuples vals.
Proof. destruct vals; simpl; lia. Qed.

Lemma effect_of_insert_nonneg s name rows :
  effect_of s = Normal (Insert name rows) -> 0 <= rows.
Proof.
  unfold effect_of. destruct s as [| | | | | |ps]; try discriminate.
  cbv zeta.
  destruct (strict_eq (field (VObj ps) "type") (VStr "use")).
  { destruct (truthy _); discriminate. }
  destruct (strict_eq (field (VObj ps) "type") (VStr "create")).
  - destruct (_ && _); [|discriminate].
    destruct (extractTableName_total (field (VObj ps) "table")) as [n ->].
    cbn [bind]. destruct (truthy n); [|discriminate].
    destruct (extractColumns _); discriminate.
  - destruct (strict_eq _ _); [|discriminate].
    destruct (truthy _); [|discriminate].
    destruct (extractTableName_total (field (VObj ps) "table")) as [n ->].
    cbn [bind]. destruct (truthy n); [|discriminate].
    intros [= _ <-]. apply value_tuples_nonneg.
Qed.

Lemma effect_of_use_truthy s v :
  effect_of s = Normal (Use v) -> truthy v = true.
Proof.
  unfold effect_of. destruct s as [| | | | | |ps]; try discriminate.
  cbv zeta.
  destruct (strict_eq (field (VObj ps) "type") (VStr "use")).
  - destruct (truthy (field (VObj ps) "db")) eqn:E; [|discriminate].
    intros [= <-]. unfold use_target.
    destruct (field (VObj ps) "db") eqn:Edb; try exact E;
      rewrite <- Edb in *;
      now destruct (truthy (field (field (VObj ps) "db") "db")) eqn:E'.
  - destruct (strict_eq (field (VObj ps) "type") (VStr "create")).
    + destruct (_ && _); [|discriminate].
      destruct (extractTableName_total (field (VObj ps) "table")) as [n ->].
      cbn [bind]. destruct (truthy n); [|discriminate].
      destruct (extractColumns _); discriminate.
    + destruct (strict_eq _ _); [|discriminate].
      destruct (truthy _); [|discriminate].
      destruct (extractTableName_total (field (VObj ps) "table")) as [n ->].
      cbn [bind]. destruct (truthy n); discriminate.
Qed.

Lemma rows_into_nonneg name s : 0 <= rows_into name s.
Proof.
  unfold rows_into. destruct (effect_of s) as [[v|n c|n rows|]|] eqn:E; try lia.
  destruct (same_key name n); [|lia]. eapply effect_of_insert_nonneg; eauto.
Qed.

Lemma inserted_rows_nonneg name l : 0 <= inserted_rows name l.
Proof.
  unfold inserted_rows. induction l as [|s r IH]; simpl; [lia|].
  pose proof (rows_into_nonneg name s). lia.
Qed.

Lemma declared_by_rowCount_nonneg l info :
  declared_by l info -> 0 <= rowCount info.
Proof.
  intros (before & s & after & _ & _ & _ & ->). apply inserted_rows_nonneg.
Qed.

(** X3.  No table of a result has a falsy name: never null, undefined,
    the empty string, 0 or false. *)
Theorem table_names_truthy ast :
  match analyzeSqlAst ast with
  | Normal r => Forall (fun info => truthy (tableName info) = true) (tables r)
  | Throw _ => no_own_toString ast = false
  end.
Proof.
  pose proof (analyzeSqlAst_cases ast) as H.
  destruct (analyzeSqlAst ast) as [r|e]; [|exact H].
  destruct H as (st & Hinv & ->). apply Forall_forall. intros info Hin.
  destruct (tables_declared _ _ _ Hinv Hin) as (before & s & after & _ & Hs & _).
  eapply effect_of_create_truthy; eauto.
Qed.

(** X4.  Every rowCount of a result is a non-negative integer. *)
Theorem rowCount_nonneg ast :
  match analyzeSqlAst ast with
  | Normal r => Forall (fun info => 0 <= rowCount info) (tables r)
  | Throw _ => no_own_toString ast = false
  end.
Proof.
  pose proof (analyzeSqlAst_cases ast) as H.
  destruct (analyzeSqlAst ast) as [r|e]; [|exact H].
  destruct H as (st & Hinv & ->). apply Forall_forall. intros info Hin.
  eapply declared_by_rowCount_nonneg, tables_declared; eauto.
Qed.

Lemma last_use_truthy l v : last_use l = Some v -> truthy v = true.
Proof.
  induction l as [|s r IH]; simpl; [discriminate|].
  destruct (last_use r) as [w|]; [intros [= <-]; now apply IH|].
  destruct (effect_of s) as [[w|n c|n rows|]|] eqn:E; try discriminate.
  intros [= <-]. eapply effect_of_use_truthy; eauto.
Qed.

(** X5.  The databaseName of a result is null or truthy, and the name the
    dashboard shows, [analysis.databaseName || 'Unknown'], is the target of
    the last use statement that has one, and "Unknown" when there is
    none. *)
Theorem shown_database_name_last_use ast :
  match analyzeSqlAst ast with
  | Normal r =>
      (databaseName r = VNull \/ truthy (databaseName r) = true)
      /\ shown_database_name r
         = match last_use (statements_of ast) with
           | Some v => v
           | None => VStr "Unknown"
           end
  | Throw _ => no_own_toString ast = false
  end.
Proof.
  pose proof (analyzeSqlAst_cases ast) as H.
  destruct (analyzeSqlAst ast) as [r|e]; [|exact H].
  destruct H as (st & Hinv & ->). destruct Hinv as (_ & _ & Hdb).
  unfold shown_database_name. cbn [databaseName result_of]. rewrite Hdb.
  destruct (last_use (statements_of ast)) as [v|] eqn:E.
  - rewrite (last_use_truthy _ _ E). auto.
  - simpl. auto.
Qed.

(** ** Tables stay *)

Lemma created_names_app l1 l2 :
  created_names (l1 ++ l2) = created_names l1 ++ created_names l2.
Proof. unfold created_names. apply flat_map_app. Qed.

Lemma first_occurrences_app_prefix a b :
  exists extra, first_occurrences (a ++ b) = first_occurrences a ++ extra.
Proof.
  induction b as [|x b IH] using rev_ind.
  - exists []. now rewrite !app_nil_r.
  - destruct IH as [extra IH]. rewrite app_assoc, first_occurrences_snoc, IH.
    destruct (existsb _ _); [eauto|].
    exists (extra ++ [x]). now rewrite app_assoc.
Qed.

(** X6.  Statements added at the end never remove or move a table: the
    table names of the analysis of a sequence are a prefix of the table
    names of the analysis of any longer sequence. *)
Theorem tables_persist l l' :
  match analyzeSqlAst (VArr l), analyzeSqlAst (VArr (l ++ l')) with
  | Normal r, Normal r' =>
      exists added,
        map tableName (tables r') = map tableName (tables r) ++ added
  | Throw _, Normal _ => False
  | _, Throw _ => no_own_toString (VArr (l ++ l')) = false
  end.
Proof.
  pose proof (analyzeSqlAst_cases (VArr l)) as H.
  pose proof (analyzeSqlAst_cases (VArr (l ++ l'))) as H'.
  unfold analyzeSqlAst in *. cbn [statements_of] in *.
  rewrite forEach_app in *.
  destruct (forEach process_statement l initial_state) as [st|e]; cbn [bind] in *.
  - destruct (forEach process_statement l' st) as [st'|e']; cbn [bind] in *;
      [|exact H'].
    destruct H as (st0 & Hinv & ->). destruct H' as (st1 & Hinv' & ->).
    rewrite (tables_names _ _ Hinv), (tables_names _ _ Hinv').
    destruct Hinv as (-> & _). destruct Hinv' as (-> & _).
    rewrite created_names_app. apply first_occurrences_app_prefix.
  - exact H'.
Qed.

Lemma first_occurrences_length l :
  (List.length (first_occurrences l) <= List.length l)%nat.
Proof.
  induction l as [|x r IH]; simpl; [lia|].
  pose proof (filter_length_le (fun y => negb (same_key x y))
                (first_occurrences r)). lia.
Qed.

Lemma created_names_length l :
  (List.length (created_names l) <= List.length l)%nat.
Proof.
  unfold created_names. induction l as [|s r IH]; simpl; [lia|].
  rewrite length_app. destruct (effect_of s) as [[]|]; simpl; lia.
Qed.

(** X7.  totalTables is at most the number of create statements that
    declare a table, which is at most the number of statements analysed. *)
Theorem totalTables_bound ast :
  match analyzeSqlAst ast with
  | Normal r =>
      totalTables r
      <= Z.of_nat (List.length (created_names (statements_of ast)))
      <= Z.of_nat (List.length (statements_of ast))
  | Throw _ => no_own_toString ast = false
  end.
Proof.
  pose proof (analyzeSqlAst_cases ast) as H.
  destruct (analyzeSqlAst ast) as [r|e]; [|exact H].
  destruct H as (st & Hinv & ->).
  pose proof (tables_names _ _ Hinv) as Hn.
  apply (f_equal (@List.length value)) in Hn. rewrite length_map in Hn.
  destruct Hinv as (Hk & _). rewrite Hk in Hn.
  cbn [totalTables result_of]. cbn [tables result_of] in Hn.
  pose proof (first_occurrences_length (created_names (statements_of ast))).
  pose proof (created_names_length (statements_of ast)). lia.
Qed.

(** ** Statements that do not interfere *)

Lemma apply_effect_tables e st1 st2 :
  st_tableMap st1 = st_tableMap st2 ->
  st_tableMap (apply_effect e st1) = st_tableMap (apply_effect e st2).
Proof.
  intros H. destruct e; cbn [apply_effect st_tableMap]; rewrite <- ?H; auto.
  now destruct (JsMap.get name (st_tableMap st1)).
Qed.

Lemma forEach_tables l st1 st2 :
  st_tableMap st1 = st_tableMap st2 ->
  match forEach process_statement l st1, forEach process_statement l st2 with
  | Normal a, Normal b => st_tableMap a = st_tableMap b
  | Throw _, Throw _ => True
  | _, _ => False
  end.
Proof.
  revert st1 st2. induction l as [|s r IH]; intros st1 st2 H; simpl; [exact H|].
  rewrite !process_statement_effect.
  destruct (effect_of s) as [e|]; cbn [bind]; [|exact I].
  apply IH. now apply apply_effect_tables.
Qed.

Lemma effect_of_use_shape s :
  get s "type" = Normal (VStr "use") ->
  effect_of s = Normal Skip \/ exists v, effect_of s = Normal (Use v).
Proof.
  intros Hty. destruct (get_string_object _ _ _ Hty) as [ps ->]; [discriminate|].
  rewrite effect_of_use.
  - destruct (truthy _); eauto.
  - unfold field. now rewrite Hty.
Qed.

(** X8.  A use statement has no effect on the tables: with or without
    it, the analysis yields the same tables and the same totalTables. *)
Theorem use_leaves_tables l1 s l2 :
  get s "type" = Normal (VStr "use") ->
  match analyzeSqlAst (VArr (l1 ++ s :: l2)), analyzeSqlAst (VArr (l1 ++ l2)) with
  | Normal r, Normal r' =>
      tables r = tables r' /\ totalTables r = totalTables r'
  | Throw _, Throw _ => True
  | _, _ => False
  end.
Proof.
  intros Hty. unfold analyzeSqlAst. cbn [statements_of].
  rewrite !forEach_app.
  destruct (forEach process_statement l1 initial_state) as [st|e];
    cbn [bind forEach]; [|exact I].
  rewrite process_statement_effect.
  assert (exists e, effect_of s = Normal e
                    /\ st_tableMap (apply_effect e st) = st_tableMap st)
    as (e & -> & He).
  { destruct (effect_of_use_shape s Hty) as [->|[v ->]]; eauto. }
  cbn [bind].
  pose proof (forEach_tables l2 _ _ He) as H.
  destruct (forEach process_statement l2 (apply_effect e st)),
    (forEach process_statement l2 st); cbn [bind]; try exact H.
  unfold result_of. cbn [tables totalTables]. now rewrite H.
Qed.

Lemma use_leaves_tables_witness :
  match
    analyzeSqlAst
      (VArr ([first_users] ++ use_statement (VStr "shop") :: [two_rows])),
    analyzeSqlAst (VArr ([first_users] ++ [two_rows]))
  with
  | Normal r, Normal r' =>
      tables r = tables r' /\ totalTables r = totalTables r'
  | Throw _, Throw _ => True
  | _, _ => False
  end.
Proof.
  apply (use_leaves_tables [first_users] (use_statement (VStr "shop")) [two_rows]).
  reflexivity.
Defined.

Lemma schema_set k v1 v2 (m1 m2 : JsMap.t tableInfo) :
  schema_of m1 = schema_of m2 ->
  tableName v1 = tableName v2 -> columns v1 = columns v2 ->
  schema_of (JsMap.set k v1 m1) = schema_of (JsMap.set k v2 m2).
Proof.
  intros H Hn Hc. revert m2 H.
  induction m1 as [|[k1 i1] r1 IH]; intros [|[k2 i2] r2] H; simpl in H;
    try discriminate.
  - simpl. now rewrite Hn, Hc.
  - injection H as -> H1 H2 H. simpl.
    destruct (same_key k2 k); simpl.
    + now rewrite Hn, Hc, H.
    + rewrite H1, H2. f_equal. now apply IH.
Qed.

Lemma schema_get k (m1 m2 : JsMap.t tableInfo) :
  schema_of m1 = schema_of m2 ->
  match JsMap.get k m1, JsMap.get k m2 with
  | Some a, Some b => tableName a = tableName b /\ columns a = columns b
  | None, None => True
  | _, _ => False
  end.
Proof.
  revert m2.
  induction m1 as [|[k1 i1] r1 IH]; intros [|[k2 i2] r2] H; simpl in H;
    try discriminate; [exact I|].
  injection H as -> H1 H2 H. simpl.
  destruct (same_key k2 k); [auto|]. now apply IH.
Qed.

Lemma schema_set_same k v info (m : JsMap.t tableInfo) :
  JsMap.get k m = Some info ->
  tableName v = tableName info -> columns v = columns info ->
  schema_of (JsMap.set k v m) = schema_of m.
Proof.
  intros Hg Hn Hc. induction m as [|[k1 i1] r IH]; simpl in *; [discriminate|].
  destruct (same_key k1 k); simpl.
  - injection Hg as ->. now rewrite Hn, Hc.
  - f_equal. now apply IH.
Qed.

Lemma apply_effect_schema e st1 st2 :
  st_databaseName st1 = st_databaseName st2 ->
  schema_of (st_tableMap st1) = schema_of (st_tableMap st2) ->
  st_databaseName (apply_effect e st1) = st_databaseName (apply_effect e st2)
  /\ schema_of (st_tableMap (apply_effect e st1))
     = schema_of (st_tableMap (apply_effect e st2)).
Proof.
  intros Hd Hs. destruct e as [v|n cols|n rows|];
    cbn [apply_effect st_tableMap st_databaseName]; auto.
  - split; [exact Hd|]. now apply schema_set.
  - pose proof (schema_get n _ _ Hs) as Hg.
    destruct (JsMap.get n (st_tableMap st1)) as [i1|],
      (JsMap.get n (st_tableMap st2)) as [i2|]; try contradiction;
      cbn [st_tableMap st_databaseName]; [|auto].
    destruct Hg as [Hn Hc]. split; [exact Hd|]. now apply schema_set.
Qed.

Lemma forEach_schema l st1 st2 :
  st_databaseName st1 = st_databaseName st2 ->
  schema_of (st_tableMap st1) = schema_of (st_tableMap st2) ->
  match forEach process_statement l st1, forEach process_statement l st2 with
  | Normal a, Normal b =>
      st_databaseName a = st_databaseName b
      /\ schema_of (st_tableMap a) = schema_of (st_tableMap b)
  | Throw _, Throw _ => True
  | _, _ => False
  end.
Proof.
  revert st1 st2. induction l as [|s r IH]; intros st1 st2 Hd Hs; simpl;
    [auto|].
  rewrite !process_statement_effect.
  destruct (effect_of s) as [e|]; cbn [bind]; [|exact I].
  destruct (apply_effect_schema e _ _ Hd Hs). now apply IH.
Qed.

Lemma effect_of_insert_kind s :
  get s "type" = Normal (VStr "insert") ->
  effect_of s = Normal Skip
  \/ exists name rows, effect_of s = Normal (Insert name rows).
Proof.
  intros Hty. destruct (get_string_object _ _ _ Hty) as [ps ->]; [discriminate|].
  unfold effect_of, field. rewrite Hty.
  cbn [strict_eq String.eqb Ascii.eqb Bool.eqb].
  destruct (truthy _); [|now left].
  destruct (extractTableName_total
              match get (VObj ps) "table" with
              | Normal w => w
              | Throw _ => VUndefined
              end) as [name ->].
  cbn [bind]. destruct (truthy name); [right; eauto|now left].
Qed.

Lemma schema_names (m : JsMap.t tableInfo) :
  map tableName (JsMap.values m) = map (fun x => fst (snd x)) (schema_of m).
Proof. unfold schema_of, JsMap.values. now rewrite !map_map. Qed.

Lemma schema_columns (m : JsMap.t tableInfo) :
  map columns (JsMap.values m) = map (fun x => snd (snd x)) (schema_of m).
Proof. unfold schema_of, JsMap.values. now rewrite !map_map. Qed.

Lemma schema_length (m1 m2 : JsMap.t tableInfo) :
  schema_of m1 = schema_of m2 -> List.length m1 = List.length m2.
Proof.
  intros H. apply (f_equal (@List.length _)) in H.
  unfold schema_of in H. now rewrite !length_map in H.
Qed.

Lemma fold_left_plus {A} (f : A -> Z) l a :
  fold_left (fun sum x => sum + f x) l a = a + fold_right Z.add 0 (map f l).
Proof.
  revert a. induction l as [|x l IH]; intros a; simpl; [lia|].
  rewrite IH. lia.
Qed.

Lemma totalColumns_columns r :
  totalColumns r
  = fold_right Z.add 0
      (map (fun cols : list column => Z.of_nat (List.length cols))
         (map columns (tables r))).
Proof. unfold totalColumns. rewrite fold_left_plus, map_map. lia. Qed.

(** X9.  An insert statement changes row counts only: with or without
    it, the analysis yields the same databaseName, the same number of
    tables, the same table names in the same order and the same columns,
    hence the same total of columns on the dashboard. *)
Theorem insert_leaves_schema l1 s l2 :
  get s "type" = Normal (VStr "insert") ->
  match analyzeSqlAst (VArr (l1 ++ s :: l2)), analyzeSqlAst (VArr (l1 ++ l2)) with
  | Normal r, Normal r' =>
      databaseName r = databaseName r'
      /\ totalTables r = totalTables r'
      /\ map tableName (tables r) = map tableName (tables r')
      /\ map columns (tables r) = map columns (tables r')
      /\ totalColumns r = totalColumns r'
  | Throw _, Throw _ => True
  | _, _ => False
  end.
Proof.
  intros Hty. unfold analyzeSqlAst. cbn [statements_of].
  rewrite !forEach_app.
  destruct (forEach process_statement l1 initial_state) as [st|e];
    cbn [bind forEach]; [|exact I].
  rewrite process_statement_effect.
  assert (exists e, effect_of s = Normal e
                    /\ st_databaseName (apply_effect e st) = st_databaseName st
                    /\ schema_of (st_tableMap (apply_effect e st))
                       = schema_of (st_tableMap st))
    as (e & -> & Hd & Hs).
  { destruct (effect_of_insert_kind s Hty) as [->|(name & rows & ->)].
    - exists Skip. auto.
    - exists (Insert name rows). split; [reflexivity|].
      cbn [apply_effect]. destruct (JsMap.get name (st_tableMap st)) eqn:G;
        cbn [st_databaseName st_tableMap]; auto.
      split; [reflexivity|]. now apply (schema_set_same _ _ t). }
  cbn [bind].
  pose proof (forEach_schema l2 _ _ Hd Hs) as H.
  destruct (forEach process_statement l2 (apply_effect e st)) as [a|],
    (forEach process_statement l2 st) as [b|]; cbn [bind]; try exact H.
  destruct H as [H1 H2]. unfold result_of.
  cbn [databaseName tables totalTables].
  rewrite !totalColumns_columns. cbn [tables result_of].
  rewrite !schema_names, !schema_columns, H2.
  unfold JsMap.values. rewrite !length_map, (schema_length _ _ H2). auto.
Qed.

Lemma insert_leaves_schema_witness :
  match
    analyzeSqlAst (VArr ([first_users] ++ two_rows :: [second_users])),
    analyzeSqlAst (VArr ([first_users] ++ [second_users]))
  with
  | Normal r, Normal r' =>
      databaseName r = databaseName r'
      /\ totalTables r = totalTables r'
      /\ map tableName (tables r) = map tableName (tables r')
      /\ map columns (tables r) = map columns (tables r')
      /\ totalColumns r = totalColumns r'
  | Throw _, Throw _ => True
  | _, _ => False
  end.
Proof.
  apply (insert_leaves_schema [first_users] two_rows [second_users]).
  reflexivity.
Defined.

(** ** Table references *)

(** X10.  Extracting a table name never throws, whatever the reference
    is: every property read is guarded. *)
Theorem extractTableName_never_throws tableRef e :
  extractTableName tableRef <> Throw e.
Proof.
  destruct (extractTableName_total tableRef) as [w H]. rewrite H. discriminate.
Qed.

(** X11.  A reference that holds no name (a primitive other than a
    string, an empty sequence, an object without [table] property) yields
    null. *)
Theorem extractTableName_no_reference tableRef :
  no_table_reference tableRef = true ->
  extractTableName tableRef = Normal VNull.
Proof.
  destruct tableRef as [| |b|n|s|[|x r]|ps]; try discriminate; intros H;
    try reflexivity.
  - now destruct b.
  - unfold extractTableName. cbn. now destruct (negb (n =? 0)).
  - unfold extractTableName.
    cbn [typeof truthy andb String.eqb Ascii.eqb Bool.eqb get bind].
    simpl in H. destruct (own "table" ps); [discriminate|]. reflexivity.
Qed.

Lemma extractTableName_no_reference_witness :
  (no_table_reference (VArr []) = true
   /\ extractTableName (VArr []) = Normal VNull)
  /\ (no_table_reference (obj [("db", VStr "shop")]) = true
      /\ extractTableName (obj [("db", VStr "shop")]) = Normal VNull).
Proof.
  split; (split; [reflexivity|]).
  - apply (extractTableName_no_reference (VArr [])). reflexivity.
  - apply (extractTableName_no_reference (obj [("db", VStr "shop")])).
    reflexivity.
Defined.

(** X12.  For a name the analyzer uses (a truthy one), a reference object
    and a sequence starting with that object are the same reference,
    whatever follows the object in the sequence. *)
Theorem extractTableName_sequence_of_object ps rest name :
  truthy name = true ->
  extractTableName (VObj ps) = Normal name
  <-> extractTableName (VArr (VObj ps :: rest)) = Normal name.
Proof.
  intros Hn. unfold extractTableName.
  cbn [typeof truthy andb String.eqb Ascii.eqb Bool.eqb].
  rewrite !get_object. cbn [bind]. rewrite typeof_string.
  set (t := field (VObj ps) "table"). clearbody t.
  destruct (is_string t) eqn:Hs.
  - destruct (truthy t) eqn:Ht; [tauto|].
    cbn. split; intros [= H].
    + rewrite H in Ht. congruence.
    + rewrite <- H in Hn. discriminate.
  - rewrite guarded_get. destruct (truthy t) eqn:Ht.
    + rewrite get_field by exact Ht.
      destruct (truthy (field t "table")) eqn:Htt; [tauto|].
      split; intros [= H].
      * rewrite <- H in Hn. discriminate.
      * rewrite H in Htt. congruence.
    + cbn. split; intros [= H]; rewrite <- H in Hn; discriminate.
Qed.

Lemma extractTableName_sequence_of_object_witness :
  truthy (VStr "users") = true
  /\ (extractTableName (VObj [("db", VNull); ("table", VStr "users")])
      = Normal (VStr "users")
      <-> extractTableName
            (VArr (VObj [("db", VNull); ("table", VStr "users")] :: []))
          = Normal (VStr "users")).
Proof.
  split; [reflexivity|].
  apply (extractTableName_sequence_of_object
           [("db", VNull); ("table", VStr "users")] [] (VStr "users")).
  reflexivity.
Defined.

(** ** Column definitions *)

(** X13.  Reading the name of a column definition throws on null and on
    undefined and on nothing else; on every other value it returns the
    string found under [column] at depth one, two or three, or
    "unknown". *)
Theorem extractColumnName_cases def :
  match def with
  | VUndefined | VNull => extractColumnName def = Throw TypeError
  | _ => extractColumnName def = Normal (column_name_of def)
  end.
Proof.
  destruct def as [| |b|n|s|l|ps]; try reflexivity.
  now apply extractColumnName_eq.
Qed.

Lemma mapM_Forall2 {A B} (f : A -> completion B) l r :
  mapM f l = Normal r -> Forall2 (fun x y => f x = Normal y) l r.
Proof.
  revert r. induction l as [|x l IH]; simpl; intros r H.
  - injection H as <-. constructor.
  - apply bind_normal in H as (y & Hy & H).
    apply bind_normal in H as (r' & Hr & H). injection H as <-.
    constructor; auto.
Qed.

Lemma mapM_app {A B} (f : A -> completion B) l1 l2 :
  mapM f (l1 ++ l2)
  = (r1 <- mapM f l1;; r2 <- mapM f l2;; Normal (r1 ++ r2)).
Proof.
  induction l1 as [|x l1 IH]; simpl.
  - destruct (mapM f l2); reflexivity.
  - destruct (f x); simpl; [|reflexivity]. rewrite IH.
    destruct (mapM f l1); simpl; [|reflexivity].
    destruct (mapM f l2); reflexivity.
Qed.

(** X14.  The columns of a definition list are one per entry flagged as
    a column, in the order of the list: their names are the names of these
    entries, their types the type strings of the [definition] fields. *)
Theorem extractColumns_retained defs cols :
  extractColumns (VArr defs) = Normal cols ->
  map columnName cols = map column_name_of (filter retained defs)
  /\ Forall2
       (fun def col =>
          buildDataType (field def "definition") = Normal (dataType col))
       (filter retained defs) cols
  /\ (List.length cols <= List.length defs)%nat.
Proof.
  rewrite extractColumns_array. intros H. apply mapM_Forall2 in H.
  assert (Hr : Forall (fun d => retained d = true) (filter retained defs)).
  { apply Forall_forall. intros d Hd. now apply filter_In in Hd. }
  pose proof (filter_length_le retained defs) as Hlen.
  rewrite (Forall2_length H) in Hlen.
  split; [|split; [|exact Hlen]]; clear Hlen.
  - induction H as [|d c ds cs Hd _ IH]; [reflexivity|].
    inversion Hr as [|? ? Hrd Hrs]; subst.
    rewrite column_of_definition_eq in Hd by now apply retained_truthy.
    apply bind_normal in Hd as (ty & Hty & Hd). injection Hd as <-.
    simpl. now rewrite IH.
  - induction H as [|d c ds cs Hd _ IH]; [constructor|].
    inversion Hr as [|? ? Hrd Hrs]; subst.
    rewrite column_of_definition_eq in Hd by now apply retained_truthy.
    apply bind_normal in Hd as (ty & Hty & Hd). injection Hd as <-.
    constructor; auto.
Qed.

Lemma extractColumns_retained_witness :
  map columnName
    [ {| columnName := "id"; dataType := "INT" |};
      {| columnName := "name"; dataType := "VARCHAR(50)" |};
      {| columnName := "price"; dataType := "DECIMAL(10,2)" |} ]
  = map column_name_of (filter retained item_definitions)
  /\ Forall2
       (fun def col =>
          buildDataType (field def "definition") = Normal (dataType col))
       (filter retained item_definitions)
       [ {| columnName := "id"; dataType := "INT" |};
         {| columnName := "name"; dataType := "VARCHAR(50)" |};
         {| columnName := "price"; dataType := "DECIMAL(10,2)" |} ]
  /\ (List.length
        [ {| columnName := "id"; dataType := "INT" |};
          {| columnName := "name"; dataType := "VARCHAR(50)" |};
          {| columnName := "price"; dataType := "DECIMAL(10,2)" |} ]
      <= List.length item_definitions)%nat.
Proof.
  apply (extractColumns_retained item_definitions). vm_compute. reflexivity.
Defined.

(** X15.  The columns of a definition list made of two parts are the
    columns of the first part followed by the columns of the second; the
    whole throws when a part does. *)
Theorem extractColumns_app defs1 defs2 :
  extractColumns (VArr (defs1 ++ defs2))
  = (cols1 <- extractColumns (VArr defs1);;
     cols2 <- extractColumns (VArr defs2);;
     Normal (cols1 ++ cols2)).
Proof. rewrite !extractColumns_array, filter_app. apply mapM_app. Qed.

(** ** Type strings *)

(** X16.  With a number as [length] of the declared type itself, the
    type string is the base type followed by "(length,scale)" when the type
    itself has a number as [scale], and by "(length)" when no scale is
    found; what the [dataType] field holds besides the tag does not
    matter. *)
Theorem buildDataType_length ps l :
  field (VObj ps) "length" = VNum l ->
  (forall s,
      field (VObj ps) "scale" = VNum s ->
      buildDataType (VObj ps)
      = Normal (base_type (VObj ps) ++ "(" ++ decimal l ++ ","
                ++ decimal s ++ ")")%string)
  /\ (found (VObj ps) "scale" = None ->
      buildDataType (VObj ps)
      = Normal (base_type (VObj ps) ++ "(" ++ decimal l ++ ")")%string).
Proof.
  intros Hl. rewrite buildDataType_eq by reflexivity.
  assert (Hf : found (VObj ps) "length" = Some (VNum l)).
  { unfold found. now rewrite Hl. }
  rewrite Hf. split.
  - intros s Hs.
    assert (Hg : found (VObj ps) "scale" = Some (VNum s)).
    { unfold found. now rewrite Hs. }
    rewrite Hg. reflexivity.
  - intros ->. reflexivity.
Qed.

Lemma buildDataType_length_witness :
  field (VObj [("dataType", VStr "decimal"); ("length", VNum 10);
               ("scale", VNum 2)]) "length" = VNum 10
  /\ buildDataType
       (VObj [("dataType", VStr "decimal"); ("length", VNum 10);
              ("scale", VNum 2)])
     = Normal "DECIMAL(10,2)"%string.
Proof.
  split; [reflexivity|].
  apply (proj1 (buildDataType_length
                  [("dataType", VStr "decimal"); ("length", VNum 10);
                   ("scale", VNum 2)] 10 eq_refl) 2).
  reflexivity.
Defined.

(** X17.  When no length is found, neither on the declared type nor
    under a truthy [dataType], the type string is the base type alone: a
    scale is dropped, and nothing is thrown whatever the scale is. *)
Theorem buildDataType_without_length definition :
  truthy definition = true ->
  found definition "length" = None ->
  buildDataType definition = Normal (base_type definition).
Proof.
  intros Ht Hl. rewrite buildDataType_eq by exact Ht. now rewrite Hl.
Qed.

Lemma buildDataType_without_length_witness :
  truthy (obj [("dataType", obj [("dataType", VStr "decimal")]);
               ("scale", obj [("toString", VNum 0)])]) = true
  /\ buildDataType
       (obj [("dataType", obj [("dataType", VStr "decimal")]);
             ("scale", obj [("toString", VNum 0)])])
     = Normal "DECIMAL"%string.
Proof.
  split; [reflexivity|].
  apply (buildDataType_without_length
           (obj [("dataType", obj [("dataType", VStr "decimal")]);
                 ("scale", obj [("toString", VNum 0)])])).
  - reflexivity.
  - reflexivity.
Defined.

(** X18.  Building a type string throws exactly when the definition is
    truthy, a length is found, and the length, or the scale found with it,
    cannot be converted to a string. *)
Theorem buildDataType_throws_iff definition :
  (exists e, buildDataType definition = Throw e)
  <-> truthy definition = true
      /\ exists l,
           found definition "length" = Some l
           /\ ((exists e, to_string l = Throw e)
               \/ exists s e,
                    found definition "scale" = Some s
                    /\ to_string s = Throw e).
Proof.
  destruct (truthy definition) eqn:Ht.
  - rewrite buildDataType_eq by exact Ht. unfold with_suffix.
    destruct (found definition "length") as [l|].
    + destruct (found definition "scale") as [s|].
      * destruct (to_string l) as [ls|e1] eqn:El; cbn [bind].
        -- destruct (to_string s) as [ss|e2] eqn:Es; cbn [bind].
           ++ split; [intros [e H]; discriminate|].
              intros (_ & l' & [= <-] & [[e H]|(s' & e & [= <-] & H)]);
                congruence.
           ++ split; [|eauto].
              intros _. split; [reflexivity|]. exists l. split; [reflexivity|].
              right. eauto.
        -- split; [|eauto].
           intros _. split; [reflexivity|]. exists l. split; [reflexivity|].
           left. eauto.
      * destruct (to_string l) as [ls|e1] eqn:El; cbn [bind].
        -- split; [intros [e H]; discriminate|].
           intros (_ & l' & [= <-] & [[e H]|(s' & e & H & _)]);
             congruence.
        -- split; [|eauto].
           intros _. split; [reflexivity|]. exists l. split; [reflexivity|].
           left. eauto.
    + split; [intros [e H]; discriminate|].
      intros (_ & l & H & _). discriminate.
  - unfold buildDataType. rewrite Ht. cbn. split.
    + intros [e H]. discriminate.
    + intros [H _]. discriminate.
Qed.

Lemma upper_ascii_idempotent c : upper_ascii (upper_ascii c) = upper_ascii c.
Proof. destruct c as [[] [] [] [] [] [] [] []]; reflexivity. Qed.

Lemma toUpperCase_idempotent s : toUpperCase (toUpperCase s) = toUpperCase s.
Proof.
  induction s as [|c s IH]; simpl; [reflexivity|].
  now rewrite upper_ascii_idempotent, IH.
Qed.

Lemma toUpperCase_length s : String.length (toUpperCase s) = String.length s.
Proof. induction s as [|c s IH]; simpl; [reflexivity|]. now rewrite IH. Qed.

Lemma toUpperCase_truthy s :
  truthy (VStr (toUpperCase s)) = truthy (VStr s).
Proof. destruct s; reflexivity. Qed.

(** X19.  The case of an ASCII type tag does not matter: a declared
    type and the same type with its tag in upper case give the same type
    string, the tag being a string of ASCII characters under [dataType]. *)
Theorem buildDataType_tag_case ps1 ps2 tag :
  ascii_only tag = true ->
  field (VObj ps1) "dataType" = VStr tag ->
  field (VObj ps2) "dataType" = VStr (toUpperCase tag) ->
  field (VObj ps1) "length" = field (VObj ps2) "length" ->
  field (VObj ps1) "scale" = field (VObj ps2) "scale" ->
  buildDataType (VObj ps1) = buildDataType (VObj ps2).
Proof.
  intros _ H1 H2 Hl Hs. rewrite !buildDataType_eq by reflexivity.
  unfold base_type, type_tag, found. rewrite H1, H2, Hl, Hs.
  rewrite toUpperCase_idempotent, toUpperCase_truthy.
  unfold field. cbn [get String.eqb Ascii.eqb Bool.eqb].
  now rewrite toUpperCase_length.
Qed.

Lemma buildDataType_tag_case_witness :
  ascii_only "varchar" = true
  /\ buildDataType (VObj [("dataType", VStr "varchar"); ("length", VNum 50)])
     = buildDataType (VObj [("dataType", VStr "VARCHAR"); ("length", VNum 50)]).
Proof.
  split; [reflexivity|].
  apply (buildDataType_tag_case
           [("dataType", VStr "varchar"); ("length", VNum 50)]
           [("dataType", VStr "VARCHAR"); ("length", VNum 50)] "varchar");
    reflexivity.
Defined.

(** ** The totals of the dashboard *)

Lemma totalRecords_sum_rows st :
  totalRecords (result_of st) = sum_rows (st_tableMap st).
Proof.
  unfold totalRecords, sum_rows. cbn [tables result_of].
  rewrite fold_left_plus. unfold JsMap.values. now rewrite map_map.
Qed.

Lemma sum_rows_set_le k v (m : JsMap.t tableInfo) :
  Forall (fun kv => 0 <= rowCount (snd kv)) m ->
  sum_rows (JsMap.set k v m) <= sum_rows m + rowCount v.
Proof.
  unfold sum_rows. induction 1 as [|[k1 i1] r H1 _ IH]; simpl; [lia|].
  destruct (same_key k1 k); simpl in *; lia.
Qed.

Lemma sum_rows_add_le k rows (m : JsMap.t tableInfo) :
  distinct_keys (JsMap.keys m) -> 0 <= rows ->
  sum_rows
    (map (fun kv =>
            if same_key (fst kv) k then (fst kv, add_rows rows (snd kv)) else kv)
       m)
  <= sum_rows m + rows.
Proof.
  intros Hd Hr. unfold sum_rows.
  induction m as [|[k1 i1] r IH]; simpl; [lia|].
  simpl in Hd. apply distinct_keys_cons in Hd as [Hk Hd].
  destruct (same_key k1 k) eqn:E; simpl.
  - apply same_key_eq in E. subst k1.
    assert (Hsame :
      map (fun kv =>
             if same_key (fst kv) k then (fst kv, add_rows rows (snd kv)) else kv)
        r = r).
    { clear IH Hd. induction r as [|[k2 i2] r IH]; [reflexivity|].
      simpl in *. inversion Hk as [|? ? Hk2 Hr']; subst.
      rewrite same_key_sym in Hk2. rewrite Hk2. f_equal. now apply IH. }
    rewrite Hsame. lia.
  - specialize (IH Hd). lia.
Qed.

Lemma dump_rows_snoc l s :
  dump_rows (l ++ [s])
  = dump_rows l
    + match effect_of s with Normal (Insert _ rows) => rows | _ => 0 end.
Proof.
  unfold dump_rows. induction l as [|a r IH]; simpl; [lia|]. rewrite IH. lia.
Qed.

Lemma invariant_rows_nonneg l st :
  invariant l st ->
  Forall (fun kv => 0 <= rowCount (snd kv)) (st_tableMap st).
Proof.
  intros (_ & Hall & _). eapply Forall_impl; [|exact Hall].
  intros kv [_ H]. eapply declared_by_rowCount_nonneg; eauto.
Qed.

Lemma forEach_sum_rows l st :
  forEach process_statement l initial_state = Normal st ->
  0 <= sum_rows (st_tableMap st) <= dump_rows l.
Proof.
  revert st. induction l as [|s l IH] using rev_ind; intros st H.
  - simpl in H. injection H as <-. cbn. lia.
  - rewrite forEach_snoc in H.
    apply bind_normal in H as (st' & H1 & H2).
    rewrite process_statement_effect in H2.
    apply bind_normal in H2 as (e & He & H2). injection H2 as <-.
    specialize (IH _ H1). apply forEach_invariant in H1 as Hinv.
    pose proof (invariant_rows_nonneg _ _ Hinv) as Hnn.
    pose proof (invariant_distinct _ _ Hinv) as Hd.
    pose proof (invariant_rows_nonneg _ _ (invariant_step _ _ _ _ Hinv He))
      as Hnn'.
    split.
    { clear - Hnn'. unfold sum_rows.
      induction Hnn' as [|kv r Hkv _ IHr]; simpl; lia. }
    rewrite dump_rows_snoc, He.
    destruct e as [v|n cols|n rows|]; cbn [apply_effect st_tableMap]; try lia.
    + pose proof (sum_rows_set_le n
                    {| tableName := n; columns := cols; rowCount := 0 |}
                    _ Hnn) as Hs.
      cbn [rowCount] in Hs. lia.
    + pose proof (effect_of_insert_nonneg _ _ _ He) as Hr.
      pose proof (sum_rows_add_le n rows _ Hd Hr) as Hs.
      rewrite <- set_get_map in Hs by exact Hd.
      destruct (JsMap.get n (st_tableMap st')); cbn [st_tableMap]; lia.
Qed.

(** X20.  The total of records the dashboard computes from a result is
    not negative and not more than the number of value tuples of the insert
    statements of the input. *)
Theorem totalRecords_bound ast :
  match analyzeSqlAst ast with
  | Normal r => 0 <= totalRecords r <= dump_rows (statements_of ast)
  | Throw _ => no_own_toString ast = false
  end.
Proof.
  pose proof (analyzeSqlAst_cases ast) as H.
  destruct (analyzeSqlAst ast) as [r|e] eqn:E; [|exact H]. clear H.
  unfold analyzeSqlAst in E. apply bind_normal in E as (st & H1 & H2).
  injection H2 as <-. rewrite totalRecords_sum_rows.
  now apply forEach_sum_rows.
Qed.

(** ** When the analysis throws *)

Lemma forEach_throw_iff l st :
  (exists e, forEach process_statement l st = Throw e)
  <-> Exists (fun s => exists e, effect_of s = Throw e) l.
Proof.
  revert st. induction l as [|s r IH]; intros st; simpl.
  - split; [intros [e H]; discriminate|intros H; inversion H].
  - rewrite process_statement_effect.
    destruct (effect_of s) as [e0|e0] eqn:E; cbn [bind].
    + rewrite IH. split; [now right|].
      intros H. inversion H as [? ? [e He]|]; subst; [congruence|assumption].
    + split; [|eauto]. intros _. left. eauto.
Qed.

Lemma single_statement_throws s :
  (exists e, analyzeSqlAst (VArr [s]) = Throw e)
  <-> exists e, effect_of s = Throw e.
Proof.
  unfold analyzeSqlAst. cbn [statements_of].
  split.
  - intros [e H].
    destruct (forEach process_statement [s] initial_state) as [st|e'] eqn:E;
      [discriminate|].
    assert (Hex : exists e, forEach process_statement [s] initial_state = Throw e)
      by eauto.
    apply forEach_throw_iff in Hex.
    inversion Hex as [? ? H1|? ? H1]; subst; [exact H1|inversion H1].
  - intros He.
    assert (Hex : Exists (fun s => exists e, effect_of s = Throw e) [s])
      by now left.
    apply (forEach_throw_iff [s] initial_state) in Hex as [e ->].
    cbn [bind]. eauto.
Qed.

(** X21.  The analysis of a sequence throws exactly when the analysis of
    one of its statements, taken alone, throws. *)
Theorem analysis_throws_iff l :
  (exists e, analyzeSqlAst (VArr l) = Throw e)
  <-> Exists (fun s => exists e, analyzeSqlAst (VArr [s]) = Throw e) l.
Proof.
  rewrite (Exists_exists (fun s => exists e, analyzeSqlAst (VArr [s]) = Throw e)).
  split.
  - intros [e H]. unfold analyzeSqlAst in H. cbn [statements_of] in H.
    destruct (forEach process_statement l initial_state) as [st|e'] eqn:E;
      [discriminate|].
    assert (Hex : exists e, forEach process_statement l initial_state = Throw e)
      by eauto.
    apply forEach_throw_iff, Exists_exists in Hex as (s & Hin & Hs).
    exists s. split; [exact Hin|]. now apply single_statement_throws.
  - intros (s & Hin & Hs). apply single_statement_throws in Hs.
    assert (Hex : Exists (fun s => exists e, effect_of s = Throw e) l).
    { apply Exists_exists. eauto. }
    apply (forEach_throw_iff l initial_state) in Hex as [e He].
    exists e. unfold analyzeSqlAst. cbn [statements_of]. now rewrite He.
Qed.

(** X22.  On a tree in which no object has an own property [toString],
    in particular on every tree of strings, numbers, booleans, nulls,
    sequences and objects with other property names, the analysis returns a
    result and does not throw. *)
Theorem analyzeSqlAst_returns ast :
  no_own_toString ast = true -> exists r, analyzeSqlAst ast = Normal r.
Proof. apply analyzeSqlAst_total. Qed.

Lemma analyzeSqlAst_returns_witness :
  no_own_toString shop_ast = true /\ exists r, analyzeSqlAst shop_ast = Normal r.
Proof.
  split; [reflexivity|].
  apply (analyzeSqlAst_returns shop_ast). reflexivity.
Defined.
